(** * domain_check.py: availability checker over RDAP with a WHOIS fallback

    A shallow embedding of [src/domain_check.py] and the properties of its
    lookup dispatch, run loop and entry point.

    Python values are modelled as follows.
    - [str] is [string]; a character is one code point in U+0000..U+00FF,
      on which [lower] and [strip] below agree with [str.lower] and
      [str.strip].  Non-ASCII glyphs of the printed literals are written in
      their UTF-8 encoding.
    - [int] is [Z]; [dict] with string keys is [gmap string _].
    - Effects (console, network, sleeping, the record file) are appended to
      one trace of events; exceptions are an explicit result. *)

From Stdlib Require Import ZArith QArith Ascii String List Lia Permutation.
From stdpp Require Import base decidable option list strings pretty gmap.

Local Open Scope Z_scope.

(** ** Python string primitives *)

Module Py.

Definition code (c : ascii) : N := N_of_ascii c.

(** [str.lower] on one code point below U+0100: [A-Z] and the Latin-1
    capitals U+00C0..U+00DE other than the multiplication sign. *)
Definition lower_char (c : ascii) : ascii :=
  let n := code c in
  if ((65 <=? n) && (n <=? 90) ||
      (192 <=? n) && (n <=? 222) && negb (n =? 215))%N
  then ascii_of_N (n + 32) else c.

Fixpoint lower (s : string) : string :=
  match s with
  | EmptyString => EmptyString
  | String c s' => String (lower_char c) (lower s')
  end.

(** [str.isspace] on one code point below U+0100. *)
Definition is_space (c : ascii) : bool :=
  let n := code c in
  ((9 <=? n) && (n <=? 13) || (28 <=? n) && (n <=? 32) ||
   (n =? 133) || (n =? 160))%N.

Fixpoint lstrip (s : string) : string :=
  match s with
  | EmptyString => EmptyString
  | String c s' => if is_space c then lstrip s' else s
  end.

Fixpoint rstrip (s : string) : string :=
  match s with
  | EmptyString => EmptyString
  | String c s' =>
      match rstrip s' with
      | EmptyString => if is_space c then EmptyString else String c EmptyString
      | r => String c r
      end
  end.

Definition strip (s : string) : string := rstrip (lstrip s).

(** Truth value of a string in a condition: non-empty. *)
Definition truthy (s : string) : bool :=
  match s with EmptyString => false | _ => true end.

Definition startswith (p s : string) : bool := String.prefix p s.

(** [kw in s]. *)
Fixpoint contains (kw s : string) : bool :=
  String.prefix kw s ||
  match s with
  | EmptyString => false
  | String _ s' => contains kw s'
  end.

(** [s.split(sep)] for a one-character separator. *)
Fixpoint split (sep : ascii) (s : string) : list string :=
  match s with
  | EmptyString => [EmptyString]
  | String c s' =>
      if Ascii.eqb c sep then EmptyString :: split sep s'
      else match split sep s' with
           | [] => [String c EmptyString]
           | w :: ws => String c w :: ws
           end
  end.

(** [s.split(sep, 1)] for a one-character separator. *)
Fixpoint split1 (sep : ascii) (s : string) : list string :=
  match s with
  | EmptyString => [EmptyString]
  | String c s' =>
      if Ascii.eqb c sep then [EmptyString; s']
      else match split1 sep s' with
           | [] => [String c EmptyString]
           | w :: ws => String c w :: ws
           end
  end.

(** [s * n]. *)
Fixpoint repeat (s : string) (n : nat) : string :=
  match n with
  | O => EmptyString
  | S n' => s +:+ repeat s n'
  end.

(** [f"{s:<n}"]: pad with spaces on the right up to width [n]. *)
Definition ljust (n : nat) (s : string) : string :=
  s +:+ repeat " " (n - String.length s).

Definition LF : ascii := ascii_of_N 10.
Definition CR : ascii := ascii_of_N 13.
Definition CRLF : string := String CR (String LF EmptyString).
Definition NL : string := String LF EmptyString.

(** Iterating a text file: the lines, each with its terminating line
    feed when it has one. *)
Fixpoint lines (s : string) : list string :=
  match s with
  | EmptyString => []
  | String c s' =>
      if Ascii.eqb c LF then NL :: lines s'
      else match lines s' with
           | [] => [String c EmptyString]
           | l :: ls => String c l :: ls
           end
  end.

(** [list(dict.fromkeys(l))]: a dict keeps its keys in insertion order and
    setting a key that is present leaves its position unchanged. *)
Definition dict_setdefault (d : list string) (k : string) : list string :=
  if bool_decide (k ∈ d) then d else d ++ [k].

Definition fromkeys (l : list string) : list string :=
  fold_left dict_setdefault l [].

End Py.

(** ** Exceptions, events and the effect monad *)

(** Failures of [requests]: every exception the library raises derives from
    [RequestException]; the two timeouts derive from [Timeout] as well. *)
Inductive requests_exception :=
| ConnectTimeout
| ReadTimeout
| ConnectionError
| SSLError
| TooManyRedirects
| InvalidURL
| ChunkedEncodingError.

(** Failures of the socket calls of [check_whois], all below [OSError]. *)
Inductive socket_error :=
| socket_timeout
| socket_gaierror
| ConnectionRefusedError
| ConnectionResetError.

Inductive exn :=
| FileNotFoundError
| JSONDecodeError
| AttributeError
| IndexError
| SystemExit (code : Z)
| RequestException (e : requests_exception)
| OSError (e : socket_error).

(** The classes named in the [except] clauses of the program. *)
Definition is_Timeout (e : exn) : bool :=
  match e with
  | RequestException ConnectTimeout | RequestException ReadTimeout => true
  | _ => false
  end.

Definition is_RequestException (e : exn) : bool :=
  match e with RequestException _ => true | _ => false end.

Definition is_Exception (e : exn) : bool :=
  match e with SystemExit _ => false | _ => true end.

Definition is_FileNotFoundError (e : exn) : bool :=
  match e with FileNotFoundError => true | _ => false end.

Inductive event :=
| Print (text : string)
| HttpGet (url : string) (timeout : Z)
| WhoisQuery (host : string) (port : Z) (payload : string) (timeout : Z)
| Sleep (seconds : Q)
| WriteCsv (filename : string) (rows : list (list string)).

Definition is_network (e : event) : bool :=
  match e with HttpGet _ _ | WhoisQuery _ _ _ _ => true | _ => false end.

Abbreviation trace := (list event).

Inductive result (A : Type) :=
| Ok (a : A)
| Raise (e : exn).
Arguments Ok {A} a.
Arguments Raise {A} e.

Definition py (A : Type) : Type := trace -> result A * trace.

Definition ret {A} (a : A) : py A := fun tr => (Ok a, tr).
Definition raise {A} (e : exn) : py A := fun tr => (Raise e, tr).
Definition bind {A B} (m : py A) (k : A -> py B) : py B :=
  fun tr => match m tr with
            | (Ok a, tr') => k a tr'
            | (Raise e, tr') => (Raise e, tr')
            end.
Definition emit (e : event) : py unit := fun tr => (Ok tt, tr ++ [e]).

Global Instance py_ret : MRet py := @ret.
Global Instance py_bind : MBind py := fun A B k m => bind m k.

(** [try: body except C1: h1 except C2: h2 ...]: the first clause whose
    class contains the exception handles it; otherwise it propagates. *)
Fixpoint handle {A} (hs : list ((exn -> bool) * py A)) (e : exn) : py A :=
  match hs with
  | [] => raise e
  | (cls, h) :: hs' => if cls e then h else handle hs' e
  end.

Definition try_except {A} (body : py A) (hs : list ((exn -> bool) * py A))
  : py A :=
  fun tr => match body tr with
            | (Ok a, tr') => (Ok a, tr')
            | (Raise e, tr') => handle hs e tr'
            end.

(** [for x in l: body], threading the loop-carried locals [acc]. *)
Fixpoint for_each {A S} (l : list A) (body : S -> A -> py S) (acc : S)
  : py S :=
  match l with
  | [] => ret acc
  | x :: l' => acc' ← body acc x; for_each l' body acc'
  end.

Definition print (s : string) : py unit := emit (Print s).

(** ** The outside world *)

(** A parsed JSON document.  The program only calls [.get] on it, so members
    of an object carry lists of strings, as [load_words_file] is annotated
    to return, and the other kinds of document carry nothing.  A member
    that is not a list of strings (on which lines 201, 204 or 229 raise
    [TypeError] or [AttributeError]) has no counterpart here: the
    properties below speak of well-typed documents and do not say that
    nothing else can fail. *)
Inductive json :=
| JObject (members : gmap string (list string))
| JArray
| JString
| JNumber
| JBool
| JNull.

(** What [session.get(url, timeout=t)] does: a response with its
    [status_code], or an exception of [requests]. *)
Inductive http_outcome :=
| Response (status_code : Z)
| HttpFails (e : requests_exception).

(** What the socket exchange of [check_whois] does: the bytes received until
    the peer closed, as decoded by [response.decode(errors="ignore")], or a
    socket error. *)
Inductive whois_outcome :=
| Received (text : string)
| SocketFails (e : socket_error).

(** Everything the program reads from outside.  The network and the clock
    may answer differently as the run proceeds, so they see the trace. *)
Record world := {
  (** [Path(__file__).parent / "domain_words.json"] *)
  WORDS_FILE : string;
  (** [str(Path(s))] *)
  Path : string -> string;
  (** [open(path)] and reading it as text; [None] when the file is missing.
      The other failures of opening and reading (a directory, no
      permission, bytes that do not decode) have no counterpart here. *)
  open_text : string -> option string;
  (** [json.load]; [None] when the text is not JSON *)
  json_loads : string -> option json;
  session_get : trace -> string -> Z -> http_outcome;
  whois_exchange : trace -> string -> Z -> string -> Z -> whois_outcome;
  (** [datetime.now().strftime("%Y%m%d_%H%M%S")] *)
  now_stamp : trace -> string;
}.

(** ** Configuration *)

Definition TLDS : list string := ["com"; "ai"; "app"; "io"; "co"].

Definition RDAP_SERVERS : gmap string string :=
  list_to_map [
    ("com",  "https://rdap.verisign.com/com/v1/domain/");
    ("net",  "https://rdap.verisign.com/net/v1/domain/");
    ("org",  "https://rdap.publicinterestregistry.org/rdap/domain/");
    ("ai",   "https://rdap.identitydigital.services/rdap/domain/");
    ("app",  "https://pubapi.registry.google/rdap/domain/");
    ("dev",  "https://pubapi.registry.google/rdap/domain/");
    ("tech", "https://rdap.centralnic.com/tech/domain/")
  ].

Definition WHOIS_SERVERS : gmap string (string * Z) :=
  list_to_map [
    ("io", ("whois.nic.io", 43));
    ("co", ("whois.nic.co", 43));
    ("me", ("whois.nic.me", 43))
  ].

Definition RATE_LIMIT : Q := 0.4.

Section Program.

Context (W : world).

(** *** Word list *)

Definition open_ (path : string) : py string :=
  match open_text W path with
  | Some text => mret text
  | None => raise FileNotFoundError
  end.

Definition json_load (text : string) : py json :=
  match json_loads W text with
  | Some data => mret data
  | None => raise JSONDecodeError
  end.

(** [data.get(key, [])] *)
Definition get_list (data : json) (key : string) : py (list string) :=
  match data with
  | JObject members => mret (default [] (members !! key))
  | _ => raise AttributeError
  end.

Definition load_words_file (path : string)
  : py (list string * list string * list string) :=
  text ← open_ path;
  data ← json_load text;
  words ← get_list data "words";
  prefixes ← get_list data "prefixes";
  roots ← get_list data "roots";
  mret (words, prefixes, roots).

Definition generate_combinations (prefixes roots : list string)
  : list string :=
  map (fun '(p, r) => p +:+ r) (list_prod prefixes roots).

(** *** Core logic *)

Definition socket_exchange (host : string) (port : Z) (payload : string)
    (timeout : Z) : py string :=
  fun tr =>
    let tr' := tr ++ [WhoisQuery host port payload timeout] in
    match whois_exchange W tr host port payload timeout with
    | Received text => (Ok text, tr')
    | SocketFails e => (Raise (OSError e), tr')
    end.

Definition check_whois (domain host : string) (port : Z) : py string :=
  try_except
    (response ← socket_exchange host port (domain +:+ Py.CRLF) 8;
     let text := Py.lower response in
     if Py.contains "no match" text || Py.contains "not found" text
        || Py.contains "no data found" text
     then mret "available"
     else if Py.contains "domain name:" text
             || Py.contains "registrar:" text
             || Py.contains "registered" text
     then mret "taken"
     else mret "unknown")
    [(is_Exception, mret "error")].

Definition get (url : string) (timeout : Z) : py Z :=
  fun tr =>
    let tr' := tr ++ [HttpGet url timeout] in
    match session_get W tr url timeout with
    | Response status_code => (Ok status_code, tr')
    | HttpFails e => (Raise (RequestException e), tr')
    end.

(** [d.get(k)] used as a condition: absent and empty are both false. *)
Definition if_truthy (o : option string) : option string :=
  match o with
  | Some s => if Py.truthy s then Some s else None
  | None => None
  end.

(** [check_domain] reads the two module-level tables when it is called.
    Its body is given for any contents of the two tables; [check_domain]
    itself is that body at the tables of the source. *)
Definition check_domain_in (rdap_servers : gmap string string)
    (whois_servers : gmap string (string * Z)) (word tld : string)
  : py string :=
  let domain := word +:+ "." +:+ tld in
  match if_truthy (rdap_servers !! tld) with
  | Some rdap_base =>
      let url := rdap_base +:+ domain in
      try_except
        (status_code ← get url 8;
         if status_code =? 404 then mret "available"
         else if status_code =? 200 then mret "taken"
         else mret ("unknown(" +:+ pretty status_code +:+ ")"))
        [(is_Timeout, mret "timeout");
         (is_RequestException, mret "error")]
  | None =>
      match whois_servers !! tld with
      | Some (host, port) => check_whois domain host port
      | None => mret "no-server"
      end
  end.

Definition check_domain (word tld : string) : py string :=
  check_domain_in RDAP_SERVERS WHOIS_SERVERS word tld.

(** *** The run *)

Record tally := {
  available : list string;
  taken : list string;
  unknown : list string;
  checked : Z;
}.

Definition check_one (word : string) (t : tally) (tld : string) : py tally :=
  let domain := word +:+ "." +:+ tld in
  status ← check_domain word tld;
  let checked := checked t + 1 in
  let '(marker, t) :=
    if String.eqb status "available" then
      ("✓", {| available := available t ++ [domain]; taken := taken t;
               unknown := unknown t; checked := checked |})
    else if String.eqb status "taken" then
      ("✗", {| available := available t; taken := taken t ++ [domain];
               unknown := unknown t; checked := checked |})
    else
      ("?", {| available := available t; taken := taken t;
               unknown := unknown t ++ [domain]; checked := checked |}) in
  (if String.eqb status "available" then
     print (marker +:+ " AVAILABLE  " +:+ domain)
   else if negb (String.eqb status "taken") then
     print (marker +:+ " " +:+ Py.ljust 10 status +:+ " " +:+ domain)
   else mret tt);;
  emit (Sleep RATE_LIMIT);;
  mret t.

(** Lines 172-183. *)
Definition save_results (t : tally) : py unit :=
  fun tr =>
    let ts := now_stamp W tr in
    let filename := "domain_results_" +:+ ts +:+ ".csv" in
    (emit (WriteCsv filename
             (["domain"; "status"]
                :: map (fun d => [d; "available"]) (available t)
                ++ map (fun d => [d; "taken"]) (taken t)
                ++ map (fun d => [d; "unknown"]) (unknown t)));;
     print (Py.NL +:+ "Results saved to " +:+ filename)) tr.

Definition len {A} (l : list A) : Z := Z.of_nat (length l).

(** Lines 127-132. *)
Definition print_header (words tlds : list string) : py unit :=
  let total := len words * len tlds in
  print (Py.NL +:+ "Checking " +:+ pretty (len words) +:+ " words × "
           +:+ pretty (len tlds) +:+ " TLDs = " +:+ pretty total
           +:+ " domains" +:+ Py.NL);;
  print (Py.ljust 30 "Domain" +:+ " " +:+ "Status");;
  print (Py.repeat "─" 45).

(** Lines 158-168. *)
Definition print_summary (t : tally) : py unit :=
  print (Py.NL +:+ Py.repeat "═" 45);;
  print ("Checked:   " +:+ pretty (checked t));;
  print ("Available: " +:+ pretty (len (available t)));;
  print ("Taken:     " +:+ pretty (len (taken t)));;
  print ("Unknown:   " +:+ pretty (len (unknown t)));;
  match available t with
  | [] => mret tt
  | _ =>
      print (Py.NL +:+ "── Available domains ──────────────────────");;
      for_each (available t) (fun _ d => print ("  ✓ " +:+ d)) tt
  end.

(** The function returns nothing; the model returns the final values of
    its local lists and counter. *)
Definition run (words tlds : list string) (save_csv : bool) : py tally :=
  let t := {| available := []; taken := []; unknown := []; checked := 0 |} in
  print_header words tlds;;
  t ← for_each words (fun t word => for_each tlds (check_one word) t) t;
  print_summary t;;
  (if save_csv && (negb (bool_decide (available t = []))
                   || negb (bool_decide (unknown t = [])))
   then save_results t else mret tt);;
  mret t.

(** *** Entry point *)

(** [arg.split("=", 1)[1]] *)
Definition after_equals (arg : string) : py string :=
  match Py.split1 "=" arg !! 1%nat with
  | Some v => mret v
  | None => raise IndexError
  end.

Definition file_words (text : string) : list string :=
  map (fun line => Py.lower (Py.strip line))
      (filter (fun line => Py.truthy (Py.strip line)) (Py.lines text)).

(** [list(dict.fromkeys(w.lower() for w in words))] *)
Definition dedupe_lowercase (words : list string) : list string :=
  Py.fromkeys (map Py.lower words).

(** [argv] is [sys.argv[1:]]. *)
Definition main (argv : list string) : py unit :=
  words_file ← for_each argv
    (fun words_file arg =>
       if Py.startswith "--words=" arg
       then v ← after_equals arg; mret (Path W v)
       else mret words_file)
    (WORDS_FILE W);
  '(base_words, prefixes, roots) ← try_except
    (r ← load_words_file words_file;
     print ("Loaded words from " +:+ words_file);;
     mret r)
    [(is_FileNotFoundError,
      print ("Words file not found: " +:+ words_file);;
      raise (SystemExit 1))];
  let words := base_words in
  let words := words ++ generate_combinations prefixes roots in
  '(tlds, file_path) ← for_each argv
    (fun '(tlds, file_path) arg =>
       if Py.startswith "--tlds=" arg
       then v ← after_equals arg; mret (Py.split "," v, file_path)
       else if Py.startswith "--words=" arg
       then mret (tlds, file_path)
       else if negb (Py.startswith "--" arg)
       then mret (tlds, Some arg)
       else mret (tlds, file_path))
    (TLDS, None);
  words ← match if_truthy file_path with
          | Some file_path =>
              try_except
                (text ← open_ file_path;
                 let file_words := file_words text in
                 print ("Loaded " +:+ pretty (len file_words)
                          +:+ " words from " +:+ file_path);;
                 mret file_words)
                [(is_FileNotFoundError,
                  print ("File not found: " +:+ file_path);;
                  raise (SystemExit 1))]
          | None => mret words
          end;
  let words := dedupe_lowercase words in
  run words tlds true;;
  mret tt.

End Program.

(** * Vocabulary of the properties *)

(** ** Words and keywords *)

(** [kw] occurs in [body] in some casing. *)
Definition mentions (kw body : string) : Prop :=
  ∃ pre mid post, body = pre +:+ mid +:+ post ∧ Py.lower mid = kw.

(** Deduplication that keeps, of every value, its first occurrence: the
    reading of "deduplication preserving first-seen order". *)
Fixpoint keep_first_seen (l : list string) : list string :=
  match l with
  | [] => []
  | x :: l' => x :: filter (λ y, y ≠ x) (keep_first_seen l')
  end.

(** ** Verdicts *)

(** The verdicts; [unknown] comes with or without a status code. *)
Definition is_verdict (v : string) : Prop :=
  v ∈ ["available"; "taken"; "unknown"; "timeout"; "error"; "no-server"]
  ∨ ∃ code : Z, v = "unknown(" +:+ pretty code +:+ ")".

(** A timeout-specific failure of the HTTP client. *)
Definition timeout_failure (e : requests_exception) : Prop :=
  e = ConnectTimeout ∨ e = ReadTimeout.

(** The two keyword groups of [check_whois], in the order it tests them. *)
Definition AVAILABLE_PHRASES : list string :=
  ["no match"; "not found"; "no data found"].
Definition TAKEN_PHRASES : list string :=
  ["domain name:"; "registrar:"; "registered"].

Definition mentions_any (phrases : list string) (body : string) : Prop :=
  Exists (λ kw, mentions kw body) phrases.

(** ** Traces and tallies *)

(** Projections of a trace. *)
Definition csv_files (tr : trace) : list (string * list (list string)) :=
  omap (λ e, match e with WriteCsv name rows => Some (name, rows) | _ => None end)
       tr.

Definition is_sleep (e : event) : bool :=
  match e with Sleep _ => true | _ => false end.

Definition network_ops (tr : trace) : nat := length (filter is_network tr).
Definition pauses (tr : trace) : nat := length (filter is_sleep tr).

(** The tld has a server in one of the two tables. *)
Definition has_server (tld : string) : bool :=
  bool_decide (is_Some (RDAP_SERVERS !! tld) ∨ is_Some (WHOIS_SERVERS !! tld)).

(** The candidate domain of a pair [(word, tld)]. *)
Definition candidate (p : string * string) : string := p.1 +:+ "." +:+ p.2.

(** The bucket of the tally a verdict is counted in. *)
Definition bucket (v : string) : string :=
  if String.eqb v "available" then "available"
  else if String.eqb v "taken" then "taken"
  else "unknown".

(** The domains of the results [(domain, verdict)] counted in bucket [b]. *)
Definition in_bucket (b : string) (rs : list (string * string)) : list string :=
  (filter (λ r, bucket r.2 = b) rs).*1.

(** The tally after one more result [(domain, verdict)]. *)
Definition tally_add (t : tally) (r : string * string) : tally :=
  if String.eqb r.2 "available" then
    {| available := available t ++ [r.1]; taken := taken t;
       unknown := unknown t; checked := checked t + 1 |}
  else if String.eqb r.2 "taken" then
    {| available := available t; taken := taken t ++ [r.1];
       unknown := unknown t; checked := checked t + 1 |}
  else
    {| available := available t; taken := taken t;
       unknown := unknown t ++ [r.1]; checked := checked t + 1 |}.

(** The progress line of one result: none for [taken]. *)
Definition progress_line (domain v : string) : list event :=
  if String.eqb v "available" then [Print ("✓ AVAILABLE  " +:+ domain)]
  else if negb (String.eqb v "taken")
  then [Print ("? " +:+ Py.ljust 10 v +:+ " " +:+ domain)]
  else [].

(** The verdict [v] is what [check_domain] returned for the pair [p]. *)
Definition verdict_of (W : world) (p : string * string) (v : string) : Prop :=
  is_verdict v ∧ ∃ tr tr', check_domain W p.1 p.2 tr = (Ok v, tr').

Definition empty_tally : tally :=
  {| available := []; taken := []; unknown := []; checked := 0 |}.

(** The rows of the record file of a tally. *)
Definition record_rows (t : tally) : list (list string) :=
  ["domain"; "status"]
    :: ((λ d, [d; "available"]) <$> available t)
    ++ ((λ d, [d; "taken"]) <$> taken t)
    ++ ((λ d, [d; "unknown"]) <$> unknown t).

(** The tally has something to record: an available or unknown domain. *)
Definition worth_saving (t : tally) : bool :=
  negb (bool_decide (available t = [])) || negb (bool_decide (unknown t = [])).

Definition is_print (e : event) : bool :=
  match e with Print _ => true | _ => false end.

(** ** Command line and load *)

(** What the command line resolves to. *)
Fixpoint drop_chars (n : nat) (s : string) : string :=
  match n, s with
  | S n', String _ s' => drop_chars n' s'
  | _, _ => s
  end.

(** The text after [flag] when [arg] starts with it. *)
Definition flag_value (flag arg : string) : option string :=
  if Py.startswith flag arg
  then Some (drop_chars (String.length flag) arg) else None.

(** The structured word file: the last [--words=] wins over the default. *)
Definition resolved_words_file (W : world) (argv : list string) : string :=
  fold_left (λ words_file arg,
               match flag_value "--words=" arg with
               | Some v => Path W v
               | None => words_file
               end) argv (WORDS_FILE W).

(** The tlds: the last [--tlds=] wins over the default. *)
Definition resolved_tlds (argv : list string) : list string :=
  fold_left (λ tlds arg,
               match flag_value "--tlds=" arg with
               | Some v => Py.split "," v
               | None => tlds
               end) argv TLDS.

(** The plain word list: the last argument that is not a [--] option. *)
Definition positional (argv : list string) : option string :=
  fold_left (λ file_path arg,
               if Py.startswith "--" arg then file_path else Some arg)
            argv None.

(** The words of a structured document: the flat list, then the
    prefix-root combinations. *)
Definition document_words (members : gmap string (list string)) : list string :=
  default [] (members !! "words")
  ++ generate_combinations (default [] (members !! "prefixes"))
       (default [] (members !! "roots")).

(** What the entry point does once the word list is settled. *)
Definition check_words (W : world) (words tlds : list string) : py unit :=
  run W (dedupe_lowercase words) tlds true;; mret tt.

(** The status the interpreter exits with: that of [sys.exit], and 1 after
    an exception nothing caught. *)
Definition exit_status {A} (r : result A) : Z :=
  match r with
  | Ok _ => 0
  | Raise (SystemExit code) => code
  | Raise _ => 1
  end.


(** ** The trace of a run *)

(** The request [check_domain] sends for a pair, if its tld has a server. *)
Definition request_for (p : string * string) : list event :=
  match RDAP_SERVERS !! p.2 with
  | Some base => [HttpGet (base +:+ candidate p) 8]
  | None =>
      match WHOIS_SERVERS !! p.2 with
      | Some (host, port) =>
          [WhoisQuery host port (candidate p +:+ Py.CRLF) 8]
      | None => []
      end
  end.

(** The events of one iteration of the loop, for the verdict [v]. *)
Definition pair_events (p : string * string) (v : string) : list event :=
  request_for p ++ progress_line (candidate p) v ++ [Sleep RATE_LIMIT].

Definition loop_events (ps : list (string * string)) (vs : list string)
  : list event :=
  concat (zip_with pair_events ps vs).

(** The verdicts of the loop over [ps] entered with the trace [tr]: each
    pair is checked at the trace the pairs before it have left. *)
Fixpoint run_verdicts (W : world) (ps : list (string * string)) (tr : trace)
  : list string :=
  match ps with
  | [] => []
  | p :: ps' =>
      match check_domain W p.1 p.2 tr with
      | (Ok v, _) => v :: run_verdicts W ps' (tr ++ pair_events p v)
      | (Raise _, _) => []
      end
  end.

Definition header_events (words tlds : list string) : list event :=
  [Print (Py.NL +:+ "Checking " +:+ pretty (len words) +:+ " words × "
            +:+ pretty (len tlds) +:+ " TLDs = "
            +:+ pretty (len words * len tlds) +:+ " domains" +:+ Py.NL);
   Print (Py.ljust 30 "Domain" +:+ " " +:+ "Status");
   Print (Py.repeat "─" 45)].

Definition summary_events (t : tally) : list event :=
  [Print (Py.NL +:+ Py.repeat "═" 45);
   Print ("Checked:   " +:+ pretty (checked t));
   Print ("Available: " +:+ pretty (len (available t)));
   Print ("Taken:     " +:+ pretty (len (taken t)));
   Print ("Unknown:   " +:+ pretty (len (unknown t)))]
  ++ match available t with
     | [] => []
     | _ =>
         Print (Py.NL +:+ "── Available domains ──────────────────────")
           :: ((λ d, Print ("  ✓ " +:+ d)) <$> available t)
     end.

(** The events of saving, with the time stamp [ts]. *)
Definition save_events (save_csv : bool) (t : tally) (ts : string)
  : list event :=
  if save_csv && worth_saving t
  then [WriteCsv ("domain_results_" +:+ ts +:+ ".csv") (record_rows t);
        Print (Py.NL +:+ "Results saved to " +:+ "domain_results_"
                 +:+ ts +:+ ".csv")]
  else [].

(** No network operation follows another without a pause in between;
    [pending] tells that an operation has not been followed by a pause. *)
Fixpoint polite (pending : bool) (tr : trace) : bool :=
  match tr with
  | [] => true
  | e :: tr' =>
      if is_network e then negb pending && polite true tr'
      else if is_sleep e then polite false tr'
      else polite pending tr'
  end.

(** ** Kinds of command-line argument *)

Inductive arg_kind :=
| WordsOption
| TldsOption
| OtherOption
| PlainFile.

Global Instance arg_kind_eq_dec : EqDecision arg_kind.
Proof. solve_decision. Defined.

Definition kind_of (arg : string) : arg_kind :=
  if Py.startswith "--words=" arg then WordsOption
  else if Py.startswith "--tlds=" arg then TldsOption
  else if Py.startswith "--" arg then OtherOption
  else PlainFile.

(** ** Sample worlds, for evaluating the program on concrete inputs *)

Module Sample.

(** The file system; [{doc}] stands for the text of the structured file. *)
Definition files (path : string) : option string :=
  if String.eqb path "domain_words.json" then Some "{doc}"
  else if String.eqb path "words.txt"
  then Some ("Alpha" +:+ Py.NL +:+ "  beta " +:+ Py.NL +:+ Py.NL +:+ "ALPHA")
  else if String.eqb path "broken.json" then Some "not json"
  else if String.eqb path "array.json" then Some "[1]"
  else None.

Definition parse (text : string) : option json :=
  if String.eqb text "{doc}"
  then Some (JObject (list_to_map [("words", ["Neo"; "neo"]);
                                   ("prefixes", ["neo"]);
                                   ("roots", ["byte"; "ware"])]))
  else if String.eqb text "[1]" then Some JArray
  else None.

(** A world whose network always answers the same. *)
Definition answering (http : http_outcome) (whois : whois_outcome) : world :=
  {| WORDS_FILE := "domain_words.json";
     Path := λ s, s;
     open_text := files;
     json_loads := parse;
     session_get := λ _ _ _, http;
     whois_exchange := λ _ _ _ _ _, whois;
     now_stamp := λ _, "20240101_120000" |}.

(** A world where only [neoware.com] is free, the [.ai] registry is
    overloaded, and the [.io] registry knows no match. *)
Definition mixed : world :=
  {| WORDS_FILE := "domain_words.json";
     Path := λ s, s;
     open_text := files;
     json_loads := parse;
     session_get := λ _ url _,
       if String.eqb url "https://rdap.verisign.com/com/v1/domain/neoware.com"
       then Response 404
       else if Py.startswith "https://rdap.identitydigital.services/" url
       then Response 503
       else if Py.startswith "https://pubapi.registry.google/" url
       then HttpFails ReadTimeout
       else Response 200;
     whois_exchange := λ _ host _ _ _,
       if String.eqb host "whois.nic.io" then Received "No Match for domain"
       else SocketFails ConnectionRefusedError;
     now_stamp := λ _, "20240101_120000" |}.

(** A world whose RDAP servers answer 404 to the first request of a run
    and 200 to every later one. *)
Definition flipping : world :=
  {| WORDS_FILE := "domain_words.json";
     Path := λ s, s;
     open_text := files;
     json_loads := parse;
     session_get := λ tr _ _,
       match filter is_network tr with
       | [] => Response 404
       | _ => Response 200
       end;
     whois_exchange := λ _ _ _ _ _, Received "";
     now_stamp := λ _, "20240101_120000" |}.

End Sample.

(** * Properties *)

(** ** Strings *)

Section StringFacts.

Lemma append_nil_l (s : string) : "" +:+ s = s.
Proof. reflexivity. Qed.

Lemma append_cons (c : ascii) (a b : string) :
  String c a +:+ b = String c (a +:+ b).
Proof. reflexivity. Qed.

Lemma append_nil_r (s : string) : s +:+ "" = s.
Proof. induction s as [|c s IH]; [reflexivity|]. by rewrite append_cons, IH. Qed.

Lemma append_assoc (a b c : string) : (a +:+ b) +:+ c = a +:+ (b +:+ c).
Proof.
  induction a as [|x a IH]; [reflexivity|].
  by rewrite !append_cons, IH.
Qed.

Lemma lower_char_idemp (c : ascii) :
  Py.lower_char (Py.lower_char c) = Py.lower_char c.
Proof. destruct c as [[] [] [] [] [] [] [] []]; reflexivity. Qed.

Lemma lower_idemp (s : string) : Py.lower (Py.lower s) = Py.lower s.
Proof.
  induction s as [|c s IH]; simpl; [reflexivity|].
  by rewrite lower_char_idemp, IH.
Qed.

Lemma lower_append (a b : string) :
  Py.lower (a +:+ b) = Py.lower a +:+ Py.lower b.
Proof.
  induction a as [|c a IH]; [reflexivity|].
  rewrite append_cons. simpl. by rewrite IH, append_cons.
Qed.

(** A split of the lowered text comes from a split of the text. *)
Lemma lower_append_inv (a b s : string) :
  Py.lower s = a +:+ b →
  ∃ a' b', s = a' +:+ b' ∧ Py.lower a' = a ∧ Py.lower b' = b.
Proof.
  revert s. induction a as [|c a IH]; intros s Hs.
  - exists "", s. by rewrite !append_nil_l in *.
  - rewrite append_cons in Hs. destruct s as [|x s]; simpl in Hs; [done|].
    injection Hs as Hc Hs. destruct (IH _ Hs) as (a' & b' & -> & Ha & Hb).
    exists (String x a'), b'. rewrite append_cons. simpl.
    by rewrite Hc, Ha.
Qed.

Lemma prefix_spec (p s : string) :
  String.prefix p s = true ↔ ∃ r, s = p +:+ r.
Proof.
  revert s. induction p as [|c p IH]; intros s.
  - split; [intros _; by exists s | by destruct s].
  - destruct s as [|x s]; simpl.
    + split; [done | intros [r Hr]; by rewrite append_cons in Hr].
    + destruct (ascii_dec c x) as [->|Hne].
      * rewrite IH. split; intros [r Hr]; exists r.
        -- by rewrite append_cons, Hr.
        -- rewrite append_cons in Hr. by injection Hr.
      * split; [done | intros [r Hr]].
        rewrite append_cons in Hr. injection Hr as Hx _. congruence.
Qed.

(** [kw in s] holds exactly when [s] is [pre + kw + post]. *)
Lemma contains_spec (kw s : string) :
  Py.contains kw s = true ↔ ∃ pre post, s = pre +:+ kw +:+ post.
Proof.
  induction s as [|c s IH].
  - change (Py.contains kw "") with (String.prefix kw "" || false).
    rewrite orb_false_r, prefix_spec. split.
    + intros [r Hr]. by exists "", r.
    + intros (pre & post & H). destruct pre; [by exists post|].
      by rewrite append_cons in H.
  - change (Py.contains kw (String c s))
      with (String.prefix kw (String c s) || Py.contains kw s).
    rewrite orb_true_iff, prefix_spec, IH. split.
    + intros [[r Hr] | (pre & post & ->)].
      * by exists "", r.
      * by exists (String c pre), post.
    + intros (pre & post & H). destruct pre as [|x pre].
      * left. by exists post.
      * right. rewrite append_cons in H. injection H as _ ->.
        by exists pre, post.
Qed.

End StringFacts.

Lemma contains_lower (kw body : string) :
  Py.contains kw (Py.lower body) = true ↔ mentions kw body.
Proof.
  rewrite contains_spec. split.
  - intros (pre & post & H).
    apply lower_append_inv in H as (pre' & rest & -> & _ & H).
    apply lower_append_inv in H as (mid & post' & -> & Hmid & _).
    by exists pre', mid, post'.
  - intros (pre & mid & post & -> & <-).
    exists (Py.lower pre), (Py.lower post). by rewrite !lower_append.
Qed.

(** ** Word-list post-processing *)

Section Dedup.

Implicit Types (l acc : list string) (x : string).

Lemma keep_first_seen_filter (P : string → Prop) `{∀ x, Decision (P x)} l :
  keep_first_seen (filter P l) = filter P (keep_first_seen l).
Proof.
  induction l as [|y l IH]; [done|]. simpl.
  destruct (decide (P y)) as [Hy|Hy].
  - rewrite !filter_cons_True by done. simpl. rewrite IH.
    f_equal. rewrite !list_filter_filter.
    apply list_filter_iff. tauto.
  - rewrite !filter_cons_False by done. rewrite IH, list_filter_filter.
    apply list_filter_iff. intros z. split; [|tauto].
    intros Hz. split; [done|]. congruence.
Qed.

Lemma keep_first_seen_elem l x : x ∈ keep_first_seen l ↔ x ∈ l.
Proof.
  induction l as [|y l IH]; [done|]. simpl.
  rewrite !elem_of_cons, list_elem_of_filter, IH.
  destruct (decide (x = y)); tauto.
Qed.

Lemma keep_first_seen_NoDup l : NoDup (keep_first_seen l).
Proof.
  induction l as [|y l IH]; simpl; constructor.
  - rewrite list_elem_of_filter. tauto.
  - by apply NoDup_filter.
Qed.

Lemma keep_first_seen_sublist l : keep_first_seen l `sublist_of` l.
Proof.
  induction l as [|y l IH]; simpl; [done|].
  apply sublist_skip. etrans; [apply sublist_filter|done].
Qed.

Lemma filter_all (P : string → Prop) `{∀ x, Decision (P x)} l :
  (∀ x, x ∈ l → P x) → filter P l = l.
Proof.
  induction l as [|y l IH]; intros Hl; [done|].
  rewrite filter_cons_True by (apply Hl; left).
  f_equal. apply IH. intros x Hx. apply Hl. by right.
Qed.

Lemma keep_first_seen_NoDup_id l : NoDup l → keep_first_seen l = l.
Proof.
  induction 1 as [|y l Hy Hl IH]; [done|]. simpl. rewrite IH. f_equal.
  apply filter_all. intros x Hx ->. done.
Qed.

(** The insertion-ordered dict computes the same list. *)
Lemma fold_setdefault l acc :
  fold_left Py.dict_setdefault l acc
  = acc ++ keep_first_seen (filter (λ x, x ∉ acc) l).
Proof.
  revert acc. induction l as [|y l IH]; intros acc; simpl.
  - by rewrite app_nil_r.
  - unfold Py.dict_setdefault at 2. case_bool_decide as Hy.
    + rewrite IH, filter_cons_False by tauto. done.
    + rewrite IH, filter_cons_True by done. simpl.
      rewrite <- app_assoc. simpl. do 2 f_equal.
      rewrite <- keep_first_seen_filter. f_equal.
      rewrite list_filter_filter. apply list_filter_iff. intros z.
      rewrite elem_of_app, list_elem_of_singleton. tauto.
Qed.

Lemma fromkeys_keep_first_seen l : Py.fromkeys l = keep_first_seen l.
Proof.
  unfold Py.fromkeys. rewrite fold_setdefault. simpl. f_equal.
  apply filter_all. intros x _. apply not_elem_of_nil.
Qed.

Lemma map_lower_id l :
  (∀ x, x ∈ l → Py.lower x = x) → map Py.lower l = l.
Proof.
  induction l as [|y l IH]; intros Hl; simpl; [done|].
  rewrite Hl by left. f_equal. apply IH. intros x Hx. apply Hl. by right.
Qed.

Lemma dedupe_lowercase_elem words x :
  x ∈ dedupe_lowercase words ↔ ∃ w, w ∈ words ∧ x = Py.lower w.
Proof.
  unfold dedupe_lowercase.
  rewrite fromkeys_keep_first_seen, keep_first_seen_elem.
  rewrite !list_elem_of_In, in_map_iff.
  split; intros (w & H1 & H2); exists w; rewrite ?list_elem_of_In in *; done.
Qed.

End Dedup.

(** C8. Post-processing lowercases every label and keeps the first
    occurrence of each, in input order: the result has no duplicates, holds
    exactly the lowercased labels, is a subsequence of the lowercased input,
    sends [["A"; "a"; "b"; "A"]] to [["a"; "b"]], and is left unchanged by a
    second application. *)
Theorem dedupe_lowercase_first_seen_idempotent :
  (∀ words,
     dedupe_lowercase words = keep_first_seen (map Py.lower words)
     ∧ NoDup (dedupe_lowercase words)
     ∧ (∀ x, x ∈ dedupe_lowercase words ↔ ∃ w, w ∈ words ∧ x = Py.lower w)
     ∧ dedupe_lowercase words `sublist_of` map Py.lower words
     ∧ dedupe_lowercase (dedupe_lowercase words) = dedupe_lowercase words)
  ∧ dedupe_lowercase ["A"; "a"; "b"; "A"] = ["a"; "b"].
Proof.
  split; [|reflexivity]. intros words.
  assert (Heq : dedupe_lowercase words = keep_first_seen (map Py.lower words))
    by apply fromkeys_keep_first_seen.
  split_and!.
  - done.
  - rewrite Heq. apply keep_first_seen_NoDup.
  - apply dedupe_lowercase_elem.
  - rewrite Heq. apply keep_first_seen_sublist.
  - unfold dedupe_lowercase at 1. rewrite map_lower_id.
    + rewrite fromkeys_keep_first_seen. apply keep_first_seen_NoDup_id.
      rewrite Heq. apply keep_first_seen_NoDup.
    + intros x (w & _ & ->)%dedupe_lowercase_elem. apply lower_idemp.
Qed.

Lemma dedupe_lowercase_first_seen_idempotent_witness :
  dedupe_lowercase ["Neo"; "NEO"; "byte"; "neo"] = ["neo"; "byte"]
  ∧ NoDup (dedupe_lowercase ["Neo"; "NEO"; "byte"; "neo"])
  ∧ dedupe_lowercase (dedupe_lowercase ["Neo"; "NEO"; "byte"; "neo"])
    = dedupe_lowercase ["Neo"; "NEO"; "byte"; "neo"].
Proof.
  pose proof dedupe_lowercase_first_seen_idempotent as [H _].
  destruct (H ["Neo"; "NEO"; "byte"; "neo"]) as (H1 & H2 & _ & _ & H5).
  split_and!; [exact H1|exact H2|exact H5].
Defined.

(** ** Reasoning about the effect monad *)

Ltac py_unfold :=
  unfold mbind, py_bind, mret, py_ret, bind, ret, raise, print, emit,
    try_except in *.

Lemma bind_ok {A B} (m : py A) (k : A → py B) tr a tr' :
  m tr = (Ok a, tr') → (m ≫= k) tr = k a tr'.
Proof. py_unfold. by intros ->. Qed.

Lemma bind_raise {A B} (m : py A) (k : A → py B) tr e tr' :
  m tr = (Raise e, tr') → (m ≫= k) tr = (Raise e, tr').
Proof. py_unfold. by intros ->. Qed.

Lemma for_each_app {A S} (l1 l2 : list A) (body : S → A → py S) acc tr :
  for_each (l1 ++ l2) body acc tr
  = (acc' ← for_each l1 body acc; for_each l2 body acc') tr.
Proof.
  revert acc tr. induction l1 as [|x l1 IH]; intros acc tr; [done|].
  simpl. py_unfold. destruct (body acc x tr) as [[acc'|e] tr']; [|done].
  apply IH.
Qed.

(** ** The registry directory *)

Lemma RDAP_SERVERS_truthy tld base :
  RDAP_SERVERS !! tld = Some base → Py.truthy base = true.
Proof.
  intros H. apply elem_of_list_to_map_2 in H.
  repeat (apply elem_of_cons in H as [[= _ ->]|H]; [reflexivity|]).
  by apply not_elem_of_nil in H.
Qed.

Lemma if_truthy_RDAP tld : if_truthy (RDAP_SERVERS !! tld) = RDAP_SERVERS !! tld.
Proof.
  destruct (RDAP_SERVERS !! tld) as [base|] eqn:H; [|done].
  simpl. by rewrite (RDAP_SERVERS_truthy _ _ H).
Qed.

(** ** The lookup dispatcher *)

Lemma contains3_lower a b c body :
  Py.contains a (Py.lower body) || Py.contains b (Py.lower body)
    || Py.contains c (Py.lower body) = true
  ↔ mentions_any [a; b; c] body.
Proof.
  unfold mentions_any. rewrite !Exists_cons, Exists_nil.
  rewrite !orb_true_iff, !contains_lower. tauto.
Qed.

Lemma whois_verdict v :
  v ∈ ["available"; "taken"; "unknown"; "error"] → is_verdict v.
Proof.
  intros H. left. revert H. rewrite !elem_of_cons, !elem_of_nil. tauto.
Qed.

Section Dispatcher.

Context (W : world).

Lemma get_response url tr code :
  session_get W tr url 8 = Response code →
  get W url 8 tr = (Ok code, tr ++ [HttpGet url 8]).
Proof. unfold get. by intros ->. Qed.

Lemma get_fails url tr e :
  session_get W tr url 8 = HttpFails e →
  get W url 8 tr = (Raise (RequestException e), tr ++ [HttpGet url 8]).
Proof. unfold get. by intros ->. Qed.

Lemma check_domain_in_rdap rdap whois word tld base tr :
  rdap !! tld = Some base → base ≠ "" →
  check_domain_in W rdap whois word tld tr
  = try_except
      (status_code ← get W (base +:+ word +:+ "." +:+ tld) 8;
       if status_code =? 404 then mret "available"
       else if status_code =? 200 then mret "taken"
       else mret ("unknown(" +:+ pretty status_code +:+ ")"))
      [(is_Timeout, mret "timeout"); (is_RequestException, mret "error")] tr.
Proof.
  intros H Hne. unfold check_domain_in. rewrite H. simpl.
  by destruct base.
Qed.

Lemma check_domain_in_no_rdap (rdap : gmap string string)
    (whois : gmap string (string * Z)) word tld tr :
  rdap !! tld = None ∨ rdap !! tld = Some "" →
  check_domain_in W rdap whois word tld tr
  = match whois !! tld with
    | Some (host, port) => check_whois W (word +:+ "." +:+ tld) host port tr
    | None => (Ok "no-server", tr)
    end.
Proof.
  intros H. unfold check_domain_in.
  assert (if_truthy (rdap !! tld) = None) as ->
    by (by destruct H as [-> | ->]).
  by destruct (whois !! tld) as [[host port]|].
Qed.

Lemma check_domain_rdap word tld base tr :
  RDAP_SERVERS !! tld = Some base →
  check_domain W word tld tr
  = try_except
      (status_code ← get W (base +:+ word +:+ "." +:+ tld) 8;
       if status_code =? 404 then mret "available"
       else if status_code =? 200 then mret "taken"
       else mret ("unknown(" +:+ pretty status_code +:+ ")"))
      [(is_Timeout, mret "timeout"); (is_RequestException, mret "error")] tr.
Proof.
  intros H. unfold check_domain. apply check_domain_in_rdap; [done|].
  apply RDAP_SERVERS_truthy in H. by destruct base.
Qed.

Lemma check_domain_no_rdap word tld tr :
  RDAP_SERVERS !! tld = None →
  check_domain W word tld tr
  = match WHOIS_SERVERS !! tld with
    | Some (host, port) => check_whois W (word +:+ "." +:+ tld) host port tr
    | None => (Ok "no-server", tr)
    end.
Proof.
  intros H. unfold check_domain. apply check_domain_in_no_rdap. by left.
Qed.

Lemma check_whois_received domain host port tr body :
  whois_exchange W tr host port (domain +:+ Py.CRLF) 8 = Received body →
  check_whois W domain host port tr
  = (Ok (if Py.contains "no match" (Py.lower body)
            || Py.contains "not found" (Py.lower body)
            || Py.contains "no data found" (Py.lower body)
         then "available"
         else if Py.contains "domain name:" (Py.lower body)
                 || Py.contains "registrar:" (Py.lower body)
                 || Py.contains "registered" (Py.lower body)
         then "taken" else "unknown"),
     tr ++ [WhoisQuery host port (domain +:+ Py.CRLF) 8]).
Proof.
  intros H. unfold check_whois, socket_exchange. py_unfold. rewrite H.
  by repeat case_match.
Qed.

Lemma check_whois_fails domain host port tr e :
  whois_exchange W tr host port (domain +:+ Py.CRLF) 8 = SocketFails e →
  check_whois W domain host port tr
  = (Ok "error", tr ++ [WhoisQuery host port (domain +:+ Py.CRLF) 8]).
Proof.
  intros H. unfold check_whois, socket_exchange. py_unfold. by rewrite H.
Qed.

Lemma check_whois_returns domain host port tr :
  ∃ v, check_whois W domain host port tr
       = (Ok v, tr ++ [WhoisQuery host port (domain +:+ Py.CRLF) 8])
     ∧ v ∈ ["available"; "taken"; "unknown"; "error"].
Proof.
  destruct (whois_exchange W tr host port (domain +:+ Py.CRLF) 8)
    as [body|e] eqn:H.
  - rewrite (check_whois_received _ _ _ _ _ H). eexists; split; [done|].
    repeat case_match; set_solver.
  - rewrite (check_whois_fails _ _ _ _ _ H). eexists; split; [done|].
    set_solver.
Qed.

Lemma rdap_lookup_returns url tr :
  ∃ v, try_except
         (status_code ← get W url 8;
          if status_code =? 404 then mret "available"
          else if status_code =? 200 then mret "taken"
          else mret ("unknown(" +:+ pretty status_code +:+ ")"))
         [(is_Timeout, mret "timeout"); (is_RequestException, mret "error")]
         tr
       = (Ok v, tr ++ [HttpGet url 8])
     ∧ is_verdict v.
Proof.
  py_unfold. destruct (session_get W tr url 8) as [code|e] eqn:Hget.
  - rewrite (get_response _ _ _ Hget). unfold is_verdict.
    destruct (code =? 404); [|destruct (code =? 200)]; simpl;
      eexists; (split; [done|]);
      [left; rewrite !elem_of_cons; tauto..|right; by eexists].
  - rewrite (get_fails _ _ _ Hget). unfold is_verdict.
    destruct e; simpl; eexists; (split; [done|]); left;
      rewrite !elem_of_cons; tauto.
Qed.

Lemma check_domain_rdap_returns word tld base tr :
  RDAP_SERVERS !! tld = Some base →
  ∃ v, check_domain W word tld tr
       = (Ok v, tr ++ [HttpGet (base +:+ word +:+ "." +:+ tld) 8])
     ∧ is_verdict v.
Proof.
  intros H. rewrite (check_domain_rdap _ _ _ _ H). py_unfold.
  destruct (session_get W tr (base +:+ word +:+ "." +:+ tld) 8)
    as [code|e] eqn:Hget.
  - rewrite (get_response _ _ _ Hget). unfold is_verdict.
    destruct (code =? 404); [|destruct (code =? 200)]; simpl;
      eexists; (split; [done|]);
      [left; set_solver..|right; by eexists].
  - rewrite (get_fails _ _ _ Hget). unfold is_verdict.
    destruct e; simpl; eexists; (split; [done|]); left; set_solver.
Qed.

End Dispatcher.

(** Every call returns a verdict and performs at most one network
    operation. *)
Lemma check_domain_returns (W : world) (word tld : string) (tr : trace) :
  ∃ v evs, check_domain W word tld tr = (Ok v, tr ++ evs)
         ∧ is_verdict v
         ∧ (evs = [] ∨ ∃ e, is_network e = true ∧ evs = [e]).
Proof.
  destruct (RDAP_SERVERS !! tld) as [base|] eqn:Hrdap.
  - destruct (check_domain_rdap_returns W word _ _ tr Hrdap) as (v & Hc & Hv).
    rewrite Hc. exists v, [HttpGet (base +:+ word +:+ "." +:+ tld) 8].
    split_and!; [done..|]. right. eexists. split; [|done]. done.
  - rewrite check_domain_no_rdap by done.
    destruct (WHOIS_SERVERS !! tld) as [[host port]|].
    + destruct (check_whois_returns W (word +:+ "." +:+ tld) host port tr)
        as (v & -> & Hv).
      eexists v, [_]. split_and!; [done| |right; eexists; split; [|done]; done].
      by apply whois_verdict.
    + exists "no-server", []. rewrite app_nil_r.
      split_and!; [done| |by left]. left. set_solver.
Qed.

(** C1. For a tld bound to an RDAP server, [check_domain] issues the single
    request [GET base + word.tld] and maps the reply: 404 to [available],
    200 to [taken], any other status code to [unknown(code)], a timeout of
    the client to [timeout], any other failure of the client to [error]. *)
Theorem check_domain_rdap_mapping
    (W : world) (word tld base : string) (tr : trace) :
  RDAP_SERVERS !! tld = Some base →
  let url := base +:+ word +:+ "." +:+ tld in
  let reply := session_get W tr url 8 in
  let tr' := tr ++ [HttpGet url 8] in
  (reply = Response 404 →
     check_domain W word tld tr = (Ok "available", tr'))
  ∧ (reply = Response 200 →
     check_domain W word tld tr = (Ok "taken", tr'))
  ∧ (∀ code, code ≠ 404 → code ≠ 200 → reply = Response code →
     check_domain W word tld tr
     = (Ok ("unknown(" +:+ pretty code +:+ ")"), tr'))
  ∧ (∀ e, timeout_failure e → reply = HttpFails e →
     check_domain W word tld tr = (Ok "timeout", tr'))
  ∧ (∀ e, ¬ timeout_failure e → reply = HttpFails e →
     check_domain W word tld tr = (Ok "error", tr')).
Proof.
  intros H url reply tr'. subst url reply tr'.
  rewrite (check_domain_rdap _ _ _ _ _ H). py_unfold. split_and!.
  - intros Hr. by rewrite (get_response _ _ _ _ Hr).
  - intros Hr. by rewrite (get_response _ _ _ _ Hr).
  - intros code H404 H200 Hr. rewrite (get_response _ _ _ _ Hr).
    apply Z.eqb_neq in H404, H200. by rewrite H404, H200.
  - intros e [-> | ->] Hr; by rewrite (get_fails _ _ _ _ Hr).
  - intros e He Hr. rewrite (get_fails _ _ _ _ Hr).
    unfold timeout_failure in He. destruct e; simpl; tauto.
Qed.

Lemma check_domain_rdap_mapping_witness :
  check_domain Sample.mixed "neoware" "com" []
  = (Ok "available",
     [HttpGet "https://rdap.verisign.com/com/v1/domain/neoware.com" 8])
  ∧ check_domain Sample.mixed "neobyte" "com" []
  = (Ok "taken",
     [HttpGet "https://rdap.verisign.com/com/v1/domain/neobyte.com" 8])
  ∧ check_domain Sample.mixed "neoware" "ai" []
  = (Ok "unknown(503)",
     [HttpGet "https://rdap.identitydigital.services/rdap/domain/neoware.ai" 8])
  ∧ check_domain Sample.mixed "neoware" "app" []
  = (Ok "timeout",
     [HttpGet "https://pubapi.registry.google/rdap/domain/neoware.app" 8])
  ∧ check_domain (Sample.answering (HttpFails SSLError) (Received ""))
      "neoware" "dev" []
  = (Ok "error",
     [HttpGet "https://pubapi.registry.google/rdap/domain/neoware.dev" 8]).
Proof.
  split_and!.
  - pose proof (check_domain_rdap_mapping Sample.mixed "neoware" "com"
                  "https://rdap.verisign.com/com/v1/domain/" [] eq_refl)
      as (H & _).
    apply H. reflexivity.
  - pose proof (check_domain_rdap_mapping Sample.mixed "neobyte" "com"
                  "https://rdap.verisign.com/com/v1/domain/" [] eq_refl)
      as (_ & H & _).
    apply H. reflexivity.
  - pose proof (check_domain_rdap_mapping Sample.mixed "neoware" "ai"
                  "https://rdap.identitydigital.services/rdap/domain/" []
                  eq_refl)
      as (_ & _ & H & _).
    apply (H 503); [lia|lia|reflexivity].
  - pose proof (check_domain_rdap_mapping Sample.mixed "neoware" "app"
                  "https://pubapi.registry.google/rdap/domain/" [] eq_refl)
      as (_ & _ & _ & H & _).
    apply (H ReadTimeout); [by right|reflexivity].
  - pose proof (check_domain_rdap_mapping
                  (Sample.answering (HttpFails SSLError) (Received ""))
                  "neoware" "dev"
                  "https://pubapi.registry.google/rdap/domain/" [] eq_refl)
      as (_ & _ & _ & _ & H).
    apply (H SSLError); [by intros [?|?]|reflexivity].
Defined.

(** C2. For a body received over WHOIS the verdict follows the keywords,
    whatever their casing: [available] when the body mentions "no match",
    "not found" or "no data found"; otherwise [taken] when it mentions
    "domain name:", "registrar:" or "registered"; otherwise [unknown].  A
    failure of the socket exchange gives [error].  One query is sent. *)
Theorem check_whois_keyword_mapping
    (W : world) (domain host : string) (port : Z) (tr : trace) :
  let payload := domain +:+ Py.CRLF in
  let reply := whois_exchange W tr host port payload 8 in
  let tr' := tr ++ [WhoisQuery host port payload 8] in
  (∀ body, reply = Received body →
     (mentions_any AVAILABLE_PHRASES body →
        check_whois W domain host port tr = (Ok "available", tr'))
     ∧ (¬ mentions_any AVAILABLE_PHRASES body →
        mentions_any TAKEN_PHRASES body →
        check_whois W domain host port tr = (Ok "taken", tr'))
     ∧ (¬ mentions_any AVAILABLE_PHRASES body →
        ¬ mentions_any TAKEN_PHRASES body →
        check_whois W domain host port tr = (Ok "unknown", tr')))
  ∧ (∀ e, reply = SocketFails e →
     check_whois W domain host port tr = (Ok "error", tr')).
Proof.
  intros payload reply tr'. subst payload reply tr'. split.
  - intros body Hr. rewrite (check_whois_received _ _ _ _ _ _ Hr).
    unfold AVAILABLE_PHRASES, TAKEN_PHRASES.
    rewrite <- !contains3_lower.
    destruct (_ || _ || Py.contains "no data found" _);
      destruct (_ || _ || Py.contains "registered" _);
      split_and!; intros; done.
  - intros e Hr. apply (check_whois_fails _ _ _ _ _ _ Hr).
Qed.

Lemma check_whois_keyword_mapping_witness :
  check_whois (Sample.answering (Response 200)
                 (Received "NO MATCH; Registrar: none"))
    "neo.io" "whois.nic.io" 43 []
  = (Ok "available",
     [WhoisQuery "whois.nic.io" 43 ("neo.io" +:+ Py.CRLF) 8])
  ∧ check_whois (Sample.answering (Response 200) (Received "REGISTRAR: x"))
      "neo.io" "whois.nic.io" 43 []
  = (Ok "taken", [WhoisQuery "whois.nic.io" 43 ("neo.io" +:+ Py.CRLF) 8])
  ∧ check_whois (Sample.answering (Response 200)
                   (SocketFails socket_timeout))
      "neo.io" "whois.nic.io" 43 []
  = (Ok "error", [WhoisQuery "whois.nic.io" 43 ("neo.io" +:+ Py.CRLF) 8]).
Proof.
  split_and!.
  - pose proof (check_whois_keyword_mapping
                  (Sample.answering (Response 200)
                     (Received "NO MATCH; Registrar: none"))
                  "neo.io" "whois.nic.io" 43 []) as (H & _).
    apply (H "NO MATCH; Registrar: none"); [reflexivity|].
    apply Exists_cons_hd. by exists "", "NO MATCH", "; Registrar: none".
  - pose proof (check_whois_keyword_mapping
                  (Sample.answering (Response 200) (Received "REGISTRAR: x"))
                  "neo.io" "whois.nic.io" 43 []) as (H & _).
    apply (H "REGISTRAR: x").
    + reflexivity.
    + unfold AVAILABLE_PHRASES. rewrite <- contains3_lower. by vm_compute.
    + apply Exists_cons_tl, Exists_cons_hd. by exists "", "REGISTRAR:", " x".
  - pose proof (check_whois_keyword_mapping
                  (Sample.answering (Response 200)
                     (SocketFails socket_timeout))
                  "neo.io" "whois.nic.io" 43 []) as (_ & H).
    apply (H socket_timeout). reflexivity.
Defined.

(** C3. The RDAP table is consulted first, whatever the WHOIS table
    holds: for any contents of the two tables, a tld with a (non-empty)
    entry in the RDAP table is looked up over HTTP only, also when the
    WHOIS table binds it too; a tld without one is looked up over WHOIS
    only, when the WHOIS table binds it; a tld bound in neither gives
    [no-server] for every word and the trace is unchanged: no network
    operation.  [check_domain] is this at the tables of the source, whose
    RDAP entries are all non-empty. *)
Theorem check_domain_resolution_order
    (W : world) (word tld : string) (tr : trace) :
  (∀ (rdap : gmap string string) (whois : gmap string (string * Z)),
     (∀ base, rdap !! tld = Some base → base ≠ "" →
        ∃ v, check_domain_in W rdap whois word tld tr
             = (Ok v, tr ++ [HttpGet (base +:+ word +:+ "." +:+ tld) 8]))
     ∧ (rdap !! tld = None ∨ rdap !! tld = Some "" →
        ∀ host port, whois !! tld = Some (host, port) →
          check_domain_in W rdap whois word tld tr
          = check_whois W (word +:+ "." +:+ tld) host port tr
          ∧ ∃ v, check_domain_in W rdap whois word tld tr
                 = (Ok v, tr ++ [WhoisQuery host port
                                   (word +:+ "." +:+ tld +:+ Py.CRLF) 8]))
     ∧ (rdap !! tld = None ∨ rdap !! tld = Some "" → whois !! tld = None →
        check_domain_in W rdap whois word tld tr = (Ok "no-server", tr)))
  ∧ check_domain W word tld tr
    = check_domain_in W RDAP_SERVERS WHOIS_SERVERS word tld tr
  ∧ (∀ base, RDAP_SERVERS !! tld = Some base → base ≠ "")
  ∧ (∀ base, RDAP_SERVERS !! tld = Some base →
     ∃ v, check_domain W word tld tr
          = (Ok v, tr ++ [HttpGet (base +:+ word +:+ "." +:+ tld) 8]))
  ∧ (RDAP_SERVERS !! tld = None →
     ∀ host port, WHOIS_SERVERS !! tld = Some (host, port) →
       check_domain W word tld tr
       = check_whois W (word +:+ "." +:+ tld) host port tr
       ∧ ∃ v, check_domain W word tld tr
              = (Ok v, tr ++ [WhoisQuery host port
                                (word +:+ "." +:+ tld +:+ Py.CRLF) 8]))
  ∧ (RDAP_SERVERS !! tld = None → WHOIS_SERVERS !! tld = None →
     check_domain W word tld tr = (Ok "no-server", tr)).
Proof.
  assert (Hgen : ∀ (rdap : gmap string string)
                   (whois : gmap string (string * Z)),
     (∀ base, rdap !! tld = Some base → base ≠ "" →
        ∃ v, check_domain_in W rdap whois word tld tr
             = (Ok v, tr ++ [HttpGet (base +:+ word +:+ "." +:+ tld) 8]))
     ∧ (rdap !! tld = None ∨ rdap !! tld = Some "" →
        ∀ host port, whois !! tld = Some (host, port) →
          check_domain_in W rdap whois word tld tr
          = check_whois W (word +:+ "." +:+ tld) host port tr
          ∧ ∃ v, check_domain_in W rdap whois word tld tr
                 = (Ok v, tr ++ [WhoisQuery host port
                                   (word +:+ "." +:+ tld +:+ Py.CRLF) 8]))
     ∧ (rdap !! tld = None ∨ rdap !! tld = Some "" → whois !! tld = None →
        check_domain_in W rdap whois word tld tr = (Ok "no-server", tr))).
  { intros rdap whois. split_and!.
    - intros base H Hne.
      rewrite (check_domain_in_rdap W rdap whois word tld base tr H Hne).
      destruct (rdap_lookup_returns W (base +:+ word +:+ "." +:+ tld) tr)
        as (v & Hv & _).
      by exists v.
    - intros Hr host port Hw.
      rewrite (check_domain_in_no_rdap W rdap whois word tld tr Hr), Hw.
      split; [done|].
      destruct (check_whois_returns W (word +:+ "." +:+ tld) host port tr)
        as (v & Hv & _).
      exists v. rewrite Hv. by rewrite !append_assoc.
    - intros Hr Hw.
      by rewrite (check_domain_in_no_rdap W rdap whois word tld tr Hr), Hw. }
  assert (Hne : ∀ base, RDAP_SERVERS !! tld = Some base → base ≠ "").
  { intros base H%RDAP_SERVERS_truthy. by destruct base. }
  destruct (Hgen RDAP_SERVERS WHOIS_SERVERS) as (H1 & H2 & H3).
  split_and!; [exact Hgen|done|exact Hne| | |].
  - intros base H. by apply H1, Hne.
  - intros Hr. apply H2. by left.
  - intros Hr. apply H3. by left.
Qed.

Lemma check_domain_resolution_order_witness :
  (∃ v, check_domain_in Sample.mixed
          {["io" := "https://rdap.example/domain/"]}
          {["io" := ("whois.nic.io", 43)]} "neo" "io" []
        = (Ok v, [HttpGet "https://rdap.example/domain/neo.io" 8]))
  ∧ (∃ v, check_domain_in Sample.mixed
            {["io" := ""]} {["io" := ("whois.nic.io", 43)]} "neo" "io" []
          = (Ok v, [WhoisQuery "whois.nic.io" 43 ("neo.io" +:+ Py.CRLF) 8]))
  ∧ (∃ v, check_domain Sample.mixed "neo" "com" []
          = (Ok v,
             [HttpGet "https://rdap.verisign.com/com/v1/domain/neo.com" 8]))
  ∧ (∃ v, check_domain Sample.mixed "neo" "io" []
          = (Ok v, [WhoisQuery "whois.nic.io" 43 ("neo.io" +:+ Py.CRLF) 8]))
  ∧ check_domain Sample.mixed "neo" "zz" [] = (Ok "no-server", []).
Proof.
  split_and!.
  - pose proof (check_domain_resolution_order Sample.mixed "neo" "io" [])
      as (H & _).
    destruct (H {["io" := "https://rdap.example/domain/"]}
                {["io" := ("whois.nic.io", 43)]}) as (H1 & _).
    apply (H1 "https://rdap.example/domain/"); [reflexivity|done].
  - pose proof (check_domain_resolution_order Sample.mixed "neo" "io" [])
      as (H & _).
    destruct (H {["io" := ""]} {["io" := ("whois.nic.io", 43)]})
      as (_ & H2 & _).
    apply (H2 (or_intror eq_refl) "whois.nic.io" 43). reflexivity.
  - pose proof (check_domain_resolution_order Sample.mixed "neo" "com" [])
      as (_ & _ & _ & H & _).
    apply (H "https://rdap.verisign.com/com/v1/domain/"). reflexivity.
  - pose proof (check_domain_resolution_order Sample.mixed "neo" "io" [])
      as (_ & _ & _ & _ & H & _).
    apply (H eq_refl "whois.nic.io" 43). reflexivity.
  - pose proof (check_domain_resolution_order Sample.mixed "neo" "zz" [])
      as (_ & _ & _ & _ & _ & H).
    apply H; reflexivity.
Defined.

(** C4. For every word, tld, world and trace, [check_domain] returns (it
    does not raise) one verdict of the closed set available, taken, unknown
    (with or without a status code), timeout, error, no-server, after at
    most one network operation. *)
Theorem check_domain_total (W : world) (word tld : string) (tr : trace) :
  ∃ v tr', check_domain W word tld tr = (Ok v, tr')
         ∧ is_verdict v
         ∧ (tr' = tr ∨ ∃ e, is_network e = true ∧ tr' = tr ++ [e]).
Proof.
  destruct (check_domain_returns W word tld tr) as (v & evs & H & Hv & Hevs).
  exists v, (tr ++ evs). split_and!; [done..|].
  destruct Hevs as [->|(e & He & ->)].
  - left. apply app_nil_r.
  - right. by exists e.
Qed.

(** ** The run *)

Lemma csv_files_app tr1 tr2 : csv_files (tr1 ++ tr2) = csv_files tr1 ++ csv_files tr2.
Proof. apply omap_app. Qed.

Lemma network_ops_app tr1 tr2 :
  network_ops (tr1 ++ tr2) = (network_ops tr1 + network_ops tr2)%nat.
Proof. unfold network_ops. by rewrite filter_app, length_app. Qed.

Lemma pauses_app tr1 tr2 : pauses (tr1 ++ tr2) = (pauses tr1 + pauses tr2)%nat.
Proof. unfold pauses. by rewrite filter_app, length_app. Qed.

Lemma tally_add_fold rs t :
  let t' := fold_left tally_add rs t in
  available t' = available t ++ in_bucket "available" rs
  ∧ taken t' = taken t ++ in_bucket "taken" rs
  ∧ unknown t' = unknown t ++ in_bucket "unknown" rs
  ∧ checked t' = checked t + len rs.
Proof.
  revert t. induction rs as [|[d v] rs IH]; intros t; simpl.
  - unfold in_bucket, len. simpl. rewrite !app_nil_r. split_and!; [done..|lia].
  - destruct (IH (tally_add t (d, v))) as (Ha & Ht & Hu & Hc).
    rewrite Ha, Ht, Hu, Hc. clear IH Ha Ht Hu Hc.
    unfold tally_add, in_bucket, bucket, len. simpl.
    rewrite !filter_cons. simpl.
    destruct (String.eqb v "available"); [|destruct (String.eqb v "taken")];
      simpl; repeat case_decide; try done; simpl;
      rewrite <- ?app_assoc; split_and!; try done; lia.
Qed.

Section Run.

Context (W : world).

Lemma check_domain_ops word tld tr :
  ∃ v evs, check_domain W word tld tr = (Ok v, tr ++ evs)
         ∧ is_verdict v
         ∧ csv_files evs = [] ∧ pauses evs = 0%nat
         ∧ network_ops evs = if has_server tld then 1%nat else 0%nat.
Proof.
  unfold has_server.
  destruct (RDAP_SERVERS !! tld) as [base|] eqn:Hrdap.
  - destruct (check_domain_rdap_returns W word _ _ tr Hrdap) as (v & Hc & Hv).
    rewrite Hc. eexists v, [_]. split; [done|].
    rewrite bool_decide_eq_true_2 by (left; by eexists). done.
  - rewrite check_domain_no_rdap by done.
    destruct (WHOIS_SERVERS !! tld) as [[host port]|] eqn:Hw.
    + destruct (check_whois_returns W (word +:+ "." +:+ tld) host port tr)
        as (v & Hc & Hv).
      rewrite Hc. eexists v, [_]. split; [done|].
      rewrite bool_decide_eq_true_2 by (right; by eexists).
      split; [|done]. by apply whois_verdict.
    + exists "no-server", []. rewrite app_nil_r.
      rewrite bool_decide_eq_false_2 by (by intros [[? ?]|[? ?]]).
      split_and!; try done. left. set_solver.
Qed.

Lemma check_one_spec word t tld tr :
  ∃ v evs,
    (∃ tr', check_domain W word tld tr = (Ok v, tr'))
    ∧ is_verdict v
    ∧ check_one W word t tld tr
      = (Ok (tally_add t (candidate (word, tld), v)), tr ++ evs)
    ∧ csv_files evs = [] ∧ pauses evs = 1%nat
    ∧ network_ops evs = if has_server tld then 1%nat else 0%nat.
Proof.
  destruct (check_domain_ops word tld tr) as (v & evs & Hc & Hv & H1 & H2 & H3).
  exists v,
    (evs ++ progress_line (candidate (word, tld)) v ++ [Sleep RATE_LIMIT]).
  split; [by eexists|]. split; [done|].
  rewrite !csv_files_app, !pauses_app, !network_ops_app, H1, H2, H3.
  unfold check_one, tally_add, progress_line, candidate. py_unfold.
  rewrite Hc. simpl.
  destruct (String.eqb v "available"); [|destruct (String.eqb v "taken")];
    simpl; rewrite <- ?app_assoc; simpl; split_and!; try done; lia.
Qed.

End Run.

Section Loop.

Context (W : world).

Lemma for_each_fmap {A B S} (g : A → B) (l : list A) (body : S → B → py S)
    acc tr :
  for_each (g <$> l) body acc tr = for_each l (λ acc x, body acc (g x)) acc tr.
Proof.
  revert acc tr. induction l as [|x l IH]; intros acc tr; [done|].
  simpl. py_unfold. destruct (body acc (g x) tr) as [[acc'|e] tr']; [|done].
  apply IH.
Qed.

(** The nested loops visit the pairs word-major. *)
Lemma for_each_nested {S} (words tlds : list string)
    (body : string → S → string → py S) acc tr :
  for_each words (λ acc word, for_each tlds (body word) acc) acc tr
  = for_each (list_prod words tlds) (λ acc p, body p.1 acc p.2) acc tr.
Proof.
  revert acc tr. induction words as [|w words IH]; intros acc tr; [done|].
  simpl. rewrite for_each_app. py_unfold.
  change (map (λ y, (w, y)) tlds) with ((λ y, (w, y)) <$> tlds).
  rewrite for_each_fmap. simpl.
  destruct (for_each tlds _ acc tr) as [[acc'|e] tr']; [|done].
  apply IH.
Qed.

Lemma loop_spec (ps : list (string * string)) t tr :
  ∃ vs evs,
    Forall2 (verdict_of W) ps vs
    ∧ for_each ps (λ t p, check_one W p.1 t p.2) t tr
      = (Ok (fold_left tally_add (zip (candidate <$> ps) vs) t), tr ++ evs)
    ∧ csv_files evs = []
    ∧ pauses evs = length ps
    ∧ network_ops evs = length (filter (λ p, has_server p.2) ps).
Proof.
  revert t tr. induction ps as [|[w tld] ps IH]; intros t tr.
  - exists [], []. rewrite app_nil_r. by split_and!.
  - destruct (check_one_spec W w t tld tr)
      as (v & evs & Hv & Hver & Hc & H1 & H2 & H3).
    destruct (IH (tally_add t (candidate (w, tld), v)) (tr ++ evs))
      as (vs & evs' & Hvs & Hl & H1' & H2' & H3').
    exists (v :: vs), (evs ++ evs'). split_and!.
    + constructor; [|done]. split; [done|]. destruct Hv as [tr' Hv].
      by exists tr, tr'.
    + simpl. py_unfold. simpl in Hc. rewrite Hc, Hl. by rewrite app_assoc.
    + by rewrite csv_files_app, H1, H1'.
    + rewrite pauses_app, H2, H2'. done.
    + rewrite network_ops_app, H3, H3', filter_cons. simpl.
      destruct (has_server tld); simpl; done.
Qed.

Lemma print_all_spec (f : string → string) (l : list string) tr :
  for_each l (λ _ d, print (f d)) tt tr = (Ok tt, tr ++ (Print ∘ f <$> l)).
Proof.
  revert tr. induction l as [|d l IH]; intros tr; simpl.
  - by rewrite app_nil_r.
  - unfold mbind, py_bind, bind. unfold print at 1, emit.
    rewrite IH. by rewrite <- app_assoc.
Qed.

End Loop.

Section RunSpec.

Context (W : world).

Lemma save_results_spec t tr :
  save_results W t tr
  = (Ok tt,
     tr ++ [WriteCsv ("domain_results_" +:+ now_stamp W tr +:+ ".csv")
              (record_rows t);
            Print (Py.NL +:+ "Results saved to " +:+ "domain_results_"
                     +:+ now_stamp W tr +:+ ".csv")]).
Proof.
  unfold save_results. py_unfold. by rewrite <- app_assoc.
Qed.

Lemma prints_silent evs :
  Forall is_print evs →
  csv_files evs = [] ∧ pauses evs = 0%nat ∧ network_ops evs = 0%nat.
Proof.
  induction 1 as [|e evs He _ (IH1 & IH2 & IH3)]; [done|].
  destruct e; try done.
Qed.

Lemma print_header_spec words tlds tr :
  ∃ evs, print_header words tlds tr = (Ok tt, tr ++ evs) ∧ Forall is_print evs.
Proof.
  unfold print_header. py_unfold. eexists [_; _; _].
  rewrite <- !app_assoc. split; [reflexivity|]. by repeat constructor.
Qed.

Lemma print_summary_spec t tr :
  ∃ evs, print_summary t tr = (Ok tt, tr ++ evs) ∧ Forall is_print evs.
Proof.
  unfold print_summary. unfold mbind, py_bind, bind. unfold print at 1 2 3 4 5.
  unfold emit. destruct (available t) as [|d l] eqn:Ha.
  - eexists [_; _; _; _; _]. rewrite <- !app_assoc.
    split; [reflexivity|]. by repeat constructor.
  - unfold print at 1. unfold emit. rewrite print_all_spec.
    eexists (_ :: _ :: _ :: _ :: _ :: _ :: _). rewrite <- !app_assoc.
    split; [reflexivity|]. repeat (constructor; [done|]).
    apply Forall_fmap, Forall_true. done.
Qed.

Lemma run_spec words tlds save_csv tr :
  ∃ vs evs,
    let ps := list_prod words tlds in
    let t := fold_left tally_add (zip (candidate <$> ps) vs) empty_tally in
    Forall2 (verdict_of W) ps vs
    ∧ run W words tlds save_csv tr = (Ok t, tr ++ evs)
    ∧ pauses evs = length ps
    ∧ network_ops evs = length (filter (λ p, has_server p.2) ps)
    ∧ ∃ ts, csv_files evs
            = if save_csv && worth_saving t
              then [("domain_results_" +:+ ts +:+ ".csv", record_rows t)]
              else [].
Proof.
  destruct (print_header_spec words tlds tr) as (e1 & Hh & P1).
  destruct (loop_spec W (list_prod words tlds) empty_tally (tr ++ e1))
    as (vs & e2 & Hvs & Hl & C2 & S2 & N2).
  exists vs. cbv zeta.
  set (t := fold_left tally_add _ empty_tally) in *.
  destruct (print_summary_spec t ((tr ++ e1) ++ e2)) as (e3 & Hs & P3).
  apply prints_silent in P1 as (C1 & S1 & N1), P3 as (C3 & S3 & N3).
  assert (Hrun : ∀ e4,
    (if save_csv && worth_saving t then save_results W t else mret tt)
      (((tr ++ e1) ++ e2) ++ e3) = (Ok tt, (((tr ++ e1) ++ e2) ++ e3) ++ e4) →
    run W words tlds save_csv tr = (Ok t, tr ++ e1 ++ e2 ++ e3 ++ e4)).
  { intros e4 H4. unfold run. unfold mbind, py_bind, bind.
    rewrite Hh, for_each_nested. fold empty_tally. rewrite Hl.
    fold t. rewrite Hs. fold (worth_saving t). rewrite H4.
    by rewrite <- !app_assoc. }
  destruct (save_csv && worth_saving t) eqn:Hsave.
  - eexists. split; [done|]. split.
    + apply Hrun. apply save_results_spec.
    + rewrite !csv_files_app, !pauses_app, !network_ops_app.
      rewrite C1, C2, C3, S1, S2, S3, N1, N2, N3.
      split_and!; [done..|]. by eexists.
  - exists (e1 ++ e2 ++ e3 ++ []). split; [done|]. split.
    + apply Hrun. by rewrite app_nil_r.
    + rewrite !csv_files_app, !pauses_app, !network_ops_app.
      rewrite C1, C2, C3, S1, S2, S3, N1, N2, N3.
      split_and!; [done..|]. by exists "".
Qed.

End RunSpec.

(** ** The trace of a run *)

Section RunTrace.

Context (W : world).

Lemma check_domain_request word tld tr :
  ∃ v, check_domain W word tld tr = (Ok v, tr ++ request_for (word, tld))
     ∧ is_verdict v.
Proof.
  unfold request_for. simpl.
  destruct (RDAP_SERVERS !! tld) as [base|] eqn:Hrdap.
  - destruct (check_domain_rdap_returns W word _ _ tr Hrdap) as (v & Hc & Hv).
    by exists v.
  - rewrite check_domain_no_rdap by done.
    destruct (WHOIS_SERVERS !! tld) as [[host port]|].
    + destruct (check_whois_returns W (word +:+ "." +:+ tld) host port tr)
        as (v & Hc & Hv).
      exists v. split; [done|]. by apply whois_verdict.
    + exists "no-server". rewrite app_nil_r. split; [done|].
      left. rewrite !elem_of_cons. tauto.
Qed.

Lemma check_one_trace word t tld tr :
  ∃ v, verdict_of W (word, tld) v
     ∧ check_one W word t tld tr
       = (Ok (tally_add t (candidate (word, tld), v)),
          tr ++ pair_events (word, tld) v).
Proof.
  destruct (check_domain_request word tld tr) as (v & Hc & Hv).
  exists v. split; [split; [done|by eexists _, _]|].
  unfold check_one, tally_add, pair_events, progress_line, candidate.
  py_unfold. rewrite Hc. simpl.
  destruct (String.eqb v "available"); [|destruct (String.eqb v "taken")];
    simpl; by rewrite <- ?app_assoc.
Qed.

Lemma loop_trace (ps : list (string * string)) t tr :
  ∃ vs, Forall2 (verdict_of W) ps vs
      ∧ for_each ps (λ t p, check_one W p.1 t p.2) t tr
        = (Ok (fold_left tally_add (zip (candidate <$> ps) vs) t),
           tr ++ loop_events ps vs).
Proof.
  revert t tr. induction ps as [|[w tld] ps IH]; intros t tr.
  - exists []. rewrite app_nil_r. by split.
  - destruct (check_one_trace w t tld tr) as (v & Hv & Hc).
    destruct (IH (tally_add t (candidate (w, tld), v))
                (tr ++ pair_events (w, tld) v)) as (vs & Hvs & Hl).
    exists (v :: vs). split; [by constructor|].
    simpl. unfold mbind, py_bind, bind. simpl in Hc. rewrite Hc, Hl.
    unfold loop_events. simpl. by rewrite app_assoc.
Qed.

Lemma print_header_trace words tlds tr :
  print_header words tlds tr = (Ok tt, tr ++ header_events words tlds).
Proof.
  unfold print_header, header_events. py_unfold. by rewrite <- !app_assoc.
Qed.

Lemma print_summary_trace t tr :
  print_summary t tr = (Ok tt, tr ++ summary_events t).
Proof.
  unfold print_summary, summary_events.
  unfold mbind, py_bind, bind. unfold print at 1 2 3 4 5. unfold emit.
  destruct (available t) as [|d l] eqn:Ha.
  - by rewrite <- !app_assoc.
  - unfold print at 1. unfold emit. rewrite print_all_spec.
    by rewrite <- !app_assoc.
Qed.

Lemma run_trace words tlds save_csv tr :
  ∃ vs ts,
    let ps := list_prod words tlds in
    let t := fold_left tally_add (zip (candidate <$> ps) vs) empty_tally in
    Forall2 (verdict_of W) ps vs
    ∧ run W words tlds save_csv tr
      = (Ok t, tr ++ header_events words tlds ++ loop_events ps vs
                  ++ summary_events t ++ save_events save_csv t ts).
Proof.
  destruct (loop_trace (list_prod words tlds) empty_tally
              (tr ++ header_events words tlds)) as (vs & Hvs & Hl).
  exists vs. cbv zeta.
  set (t := fold_left tally_add _ empty_tally) in *.
  set (tr3 := ((tr ++ header_events words tlds)
                ++ loop_events (list_prod words tlds) vs)
              ++ summary_events t).
  exists (now_stamp W tr3). split; [done|].
  unfold run. unfold mbind, py_bind, bind.
  rewrite print_header_trace, for_each_nested. fold empty_tally.
  rewrite Hl. fold t. rewrite print_summary_trace. fold (worth_saving t).
  fold tr3. unfold save_events.
  destruct (save_csv && worth_saving t).
  - rewrite save_results_spec. unfold tr3. by rewrite <- !app_assoc.
  - unfold tr3. simpl. by rewrite app_nil_r, <- !app_assoc.
Qed.

End RunTrace.

Lemma list_prod_nil_r {A B} (l : list A) : list_prod l (@nil B) = [].
Proof. by induction l. Qed.

Lemma filter_network_request p : filter is_network (request_for p) = request_for p.
Proof.
  unfold request_for. destruct (RDAP_SERVERS !! p.2); [done|].
  by destruct (WHOIS_SERVERS !! p.2) as [[host port]|].
Qed.

Lemma filter_network_progress d v : filter is_network (progress_line d v) = [].
Proof.
  unfold progress_line.
  destruct (String.eqb v "available"); [done|].
  by destruct (String.eqb v "taken").
Qed.

Lemma filter_sleep_request p : filter is_sleep (request_for p) = [].
Proof.
  unfold request_for. destruct (RDAP_SERVERS !! p.2); [done|].
  by destruct (WHOIS_SERVERS !! p.2) as [[host port]|].
Qed.

Lemma filter_sleep_progress d v : filter is_sleep (progress_line d v) = [].
Proof.
  unfold progress_line.
  destruct (String.eqb v "available"); [done|].
  by destruct (String.eqb v "taken").
Qed.

Lemma filter_network_loop (W : world) ps vs :
  Forall2 (verdict_of W) ps vs →
  filter is_network (loop_events ps vs) = concat (request_for <$> ps).
Proof.
  induction 1 as [|p v ps vs _ _ IH]; [done|].
  unfold loop_events in *. simpl. unfold pair_events at 1.
  rewrite !filter_app, filter_network_request, filter_network_progress, IH.
  simpl. by rewrite <- app_assoc.
Qed.

Lemma filter_sleep_loop (W : world) ps vs :
  Forall2 (verdict_of W) ps vs →
  filter is_sleep (loop_events ps vs) = replicate (length ps) (Sleep RATE_LIMIT).
Proof.
  induction 1 as [|p v ps vs _ _ IH]; [done|].
  unfold loop_events in *. simpl. unfold pair_events at 1.
  rewrite !filter_app, filter_sleep_request, filter_sleep_progress, IH.
  done.
Qed.

Lemma filter_network_summary t : filter is_network (summary_events t) = [].
Proof.
  unfold summary_events. rewrite filter_app. simpl.
  destruct (available t) as [|d l]; [done|].
  rewrite filter_cons_False by (simpl; tauto).
  induction (d :: l) as [|x xs IH]; [done|].
  simpl. by rewrite filter_cons_False by (simpl; tauto).
Qed.

Lemma filter_sleep_summary t : filter is_sleep (summary_events t) = [].
Proof.
  unfold summary_events. rewrite filter_app. simpl.
  destruct (available t) as [|d l]; [done|].
  rewrite filter_cons_False by (simpl; tauto).
  induction (d :: l) as [|x xs IH]; [done|].
  simpl. by rewrite filter_cons_False by (simpl; tauto).
Qed.

Lemma filter_network_save b t ts : filter is_network (save_events b t ts) = [].
Proof. unfold save_events. by destruct (b && worth_saving t). Qed.

Lemma filter_sleep_save b t ts : filter is_sleep (save_events b t ts) = [].
Proof. unfold save_events. by destruct (b && worth_saving t). Qed.

(** Events that are neither network operations nor pauses do not matter to
    [polite]. *)
Lemma polite_quiet pending evs rest :
  filter is_network evs = [] → filter is_sleep evs = [] →
  polite pending (evs ++ rest) = polite pending rest.
Proof.
  induction evs as [|e evs IH]; [done|]. rewrite !filter_cons. simpl.
  destruct (is_network e), (is_sleep e); simpl; done.
Qed.

Lemma polite_pair p v rest :
  polite false (pair_events p v ++ rest) = polite false rest.
Proof.
  unfold pair_events. rewrite <- !app_assoc.
  assert (Hq : ∀ b, polite b (progress_line (candidate p) v
                                ++ [Sleep RATE_LIMIT] ++ rest)
                    = polite false rest).
  { intros b. rewrite polite_quiet;
      [done|apply filter_network_progress|apply filter_sleep_progress]. }
  unfold request_for. destruct (RDAP_SERVERS !! p.2); [apply Hq|].
  destruct (WHOIS_SERVERS !! p.2) as [[host port]|]; apply Hq.
Qed.

Lemma polite_loop (W : world) ps vs rest :
  Forall2 (verdict_of W) ps vs →
  polite false (loop_events ps vs ++ rest) = polite false rest.
Proof.
  induction 1 as [|p v ps vs _ _ IH]; [done|].
  unfold loop_events in *. simpl. by rewrite <- app_assoc, polite_pair.
Qed.

Section RunExact.

Context (W : world).

Lemma check_one_exact word t tld tr v tr' :
  check_domain W word tld tr = (Ok v, tr') →
  verdict_of W (word, tld) v
  ∧ check_one W word t tld tr
    = (Ok (tally_add t (candidate (word, tld), v)),
       tr ++ pair_events (word, tld) v).
Proof.
  intros Hc. destruct (check_domain_request W word tld tr) as (v' & Hreq & Hv).
  assert (v' = v) as -> by congruence.
  split; [split; [done|by eexists _, _]|].
  unfold check_one, tally_add, pair_events, progress_line, candidate.
  py_unfold. rewrite Hreq. simpl.
  destruct (String.eqb v "available"); [|destruct (String.eqb v "taken")];
    simpl; by rewrite <- ?app_assoc.
Qed.

(** The loop, with its verdicts computed pair after pair. *)
Lemma loop_exact (ps : list (string * string)) t tr :
  let vs := run_verdicts W ps tr in
  length vs = length ps
  ∧ Forall2 (verdict_of W) ps vs
  ∧ for_each ps (λ t p, check_one W p.1 t p.2) t tr
    = (Ok (fold_left tally_add (zip (candidate <$> ps) vs) t),
       tr ++ loop_events ps vs).
Proof.
  revert t tr. induction ps as [|[w tld] ps IH]; intros t tr; cbv zeta.
  - simpl. rewrite app_nil_r. by split_and!.
  - destruct (check_domain_request W w tld tr) as (v & Hc & _).
    destruct (check_one_exact w t tld tr v _ Hc) as (Hv & Hone).
    destruct (IH (tally_add t (candidate (w, tld), v))
                (tr ++ pair_events (w, tld) v)) as (Hlen & Hvs & Hl).
    simpl run_verdicts. rewrite Hc. split_and!.
    + simpl. by rewrite Hlen.
    + by constructor.
    + simpl. unfold mbind, py_bind, bind. simpl in Hone. rewrite Hone, Hl.
      unfold loop_events. simpl. by rewrite app_assoc.
Qed.

Lemma run_exact words tlds save_csv tr :
  let ps := list_prod words tlds in
  let vs := run_verdicts W ps (tr ++ header_events words tlds) in
  let t := fold_left tally_add (zip (candidate <$> ps) vs) empty_tally in
  length vs = length ps
  ∧ Forall2 (verdict_of W) ps vs
  ∧ ∃ ts, run W words tlds save_csv tr
          = (Ok t, tr ++ header_events words tlds ++ loop_events ps vs
                      ++ summary_events t ++ save_events save_csv t ts).
Proof.
  cbv zeta.
  destruct (loop_exact (list_prod words tlds) empty_tally
              (tr ++ header_events words tlds)) as (Hlen & Hvs & Hl).
  set (vs := run_verdicts W _ _) in *.
  set (t := fold_left tally_add _ empty_tally) in *.
  split; [done|]. split; [done|].
  set (tr3 := ((tr ++ header_events words tlds)
                ++ loop_events (list_prod words tlds) vs)
              ++ summary_events t).
  exists (now_stamp W tr3).
  unfold run. unfold mbind, py_bind, bind.
  rewrite print_header_trace, for_each_nested. fold empty_tally.
  rewrite Hl. fold t. rewrite print_summary_trace. fold (worth_saving t).
  fold tr3. unfold save_events.
  destruct (save_csv && worth_saving t).
  - rewrite save_results_spec. unfold tr3. by rewrite <- !app_assoc.
  - unfold tr3. simpl. by rewrite app_nil_r, <- !app_assoc.
Qed.

End RunExact.

(** The three buckets split the results. *)
Lemma buckets_partition (rs : list (string * string)) :
  in_bucket "available" rs ++ in_bucket "taken" rs ++ in_bucket "unknown" rs
  ≡ₚ rs.*1.
Proof.
  induction rs as [|[d v] rs IH]; [done|].
  unfold in_bucket, bucket in *. rewrite !filter_cons. simpl.
  destruct (String.eqb v "available"); [|destruct (String.eqb v "taken")];
    repeat case_decide; try done; simpl.
  - by rewrite IH.
  - rewrite <- Permutation_middle. by rewrite IH.
  - rewrite app_assoc, <- Permutation_middle, <- app_assoc. by rewrite IH.
Qed.

Lemma bucket_folds :
  bucket "available" = "available" ∧ bucket "taken" = "taken"
  ∧ bucket "unknown" = "unknown" ∧ bucket "timeout" = "unknown"
  ∧ bucket "error" = "unknown" ∧ bucket "no-server" = "unknown"
  ∧ ∀ code : Z, bucket ("unknown(" +:+ pretty code +:+ ")") = "unknown".
Proof. by split_and!. Qed.

Lemma results_length (W : world) (ps : list (string * string)) vs :
  Forall2 (verdict_of W) ps vs →
  (zip (candidate <$> ps) vs).*1 = candidate <$> ps
  ∧ length (zip (candidate <$> ps) vs) = length ps.
Proof.
  intros H%Forall2_length. split.
  - apply fst_zip. rewrite length_fmap. lia.
  - rewrite length_zip, length_fmap. lia.
Qed.

(** C5, as the code has it.  A run over [words] and [tlds] returns; it
    calls [check_domain] once for each position of the word-major product,
    in order, each pair checked at the trace the pairs before it have left
    (a pair that occurs twice is checked at each occurrence), each call
    giving one verdict; each domain is appended to the bucket of its
    verdict, so the three buckets are the three disjoint filters of the
    results, together they are a rearrangement of the checked domains
    (without repetition when the checked domains are distinct), and the
    counter [checked] is the number of pairs and the sum of the bucket
    sizes.  The run pauses once per pair and performs one network
    operation per pair whose tld has a server. *)
Theorem run_tally_partition
    (W : world) (words tlds : list string) (save_csv : bool) (tr : trace) :
  ∃ t evs vs,
    let ps := list_prod words tlds in
    let rs := zip (candidate <$> ps) vs in
    run W words tlds save_csv tr = (Ok t, tr ++ evs)
    ∧ vs = run_verdicts W ps (tr ++ header_events words tlds)
    ∧ Forall2 (verdict_of W) ps vs
    ∧ available t = in_bucket "available" rs
    ∧ taken t = in_bucket "taken" rs
    ∧ unknown t = in_bucket "unknown" rs
    ∧ available t ++ taken t ++ unknown t ≡ₚ candidate <$> ps
    ∧ (NoDup (candidate <$> ps) → NoDup (available t ++ taken t ++ unknown t))
    ∧ checked t = len words * len tlds
    ∧ checked t = len (available t) + len (taken t) + len (unknown t)
    ∧ pauses evs = length ps
    ∧ network_ops evs = length (filter (λ p, has_server p.2) ps).
Proof.
  destruct (run_exact W words tlds save_csv tr) as (_ & Hvs & ts & Hrun).
  destruct (run_spec W words tlds save_csv tr)
    as (vs' & evs' & _ & Hrun' & Hp & Hn & _).
  rewrite Hrun in Hrun'. injection Hrun' as _ Hevs.
  apply app_inv_head in Hevs. rewrite <- Hevs in Hp, Hn. clear Hevs vs' evs'.
  set (vs := run_verdicts W _ _) in *.
  eexists _, _, vs. cbv zeta. split; [exact Hrun|]. split; [done|].
  destruct (tally_add_fold (zip (candidate <$> list_prod words tlds) vs)
              empty_tally) as (Ha & Ht & Hu & Hc).
  destruct (results_length W _ _ Hvs) as [Hfst Hlen].
  simpl in Ha, Ht, Hu, Hc. rewrite Ha, Ht, Hu, Hc.
  assert (HP := buckets_partition (zip (candidate <$> list_prod words tlds) vs)).
  rewrite Hfst in HP.
  assert (Hlp : length (list_prod words tlds)
                = (length words * length tlds)%nat) by apply length_prod.
  split_and!; try done.
  - intros Hnd. by rewrite HP.
  - unfold len. rewrite Hlen, Hlp. lia.
  - apply Permutation_length in HP.
    rewrite !length_app, length_fmap in HP. unfold len. rewrite Hlen. lia.
Qed.

Lemma run_tally_partition_witness :
  ∃ t evs vs,
    run Sample.mixed ["neoware"] ["com"] true [] = (Ok t, [] ++ evs)
    ∧ vs = run_verdicts Sample.mixed [("neoware", "com")]
             ([] ++ header_events ["neoware"] ["com"])
    ∧ Forall2 (verdict_of Sample.mixed) [("neoware", "com")] vs
    ∧ available t = in_bucket "available" (zip ["neoware.com"] vs)
    ∧ taken t = in_bucket "taken" (zip ["neoware.com"] vs)
    ∧ unknown t = in_bucket "unknown" (zip ["neoware.com"] vs)
    ∧ available t ++ taken t ++ unknown t ≡ₚ ["neoware.com"]
    ∧ (NoDup ["neoware.com"] → NoDup (available t ++ taken t ++ unknown t))
    ∧ checked t = 1
    ∧ checked t = len (available t) + len (taken t) + len (unknown t)
    ∧ pauses evs = 1%nat
    ∧ network_ops evs = 1%nat.
Proof.
  exact (run_tally_partition Sample.mixed ["neoware"] ["com"] true []).
Defined.

(** C5, as worded, fails when a tld is repeated: the pair of [neo] and
    [com] is then attempted twice, gets two verdicts, and its domain sits
    in two buckets. *)
Lemma repeated_tld_is_checked_twice :
  ∃ t tr',
    run Sample.flipping ["neo"] ["com"; "com"] true [] = (Ok t, tr')
    ∧ available t = ["neo.com"] ∧ taken t = ["neo.com"] ∧ unknown t = []
    ∧ filter is_network tr'
      = [HttpGet "https://rdap.verisign.com/com/v1/domain/neo.com" 8;
         HttpGet "https://rdap.verisign.com/com/v1/domain/neo.com" 8]
    ∧ ¬ NoDup (available t ++ taken t ++ unknown t).
Proof.
  eexists _, _. split; [by vm_compute|].
  split_and!; [reflexivity..|].
  simpl. intros [Hin _]%NoDup_cons. apply Hin. by left.
Qed.


Lemma csv_files_silent evs :
  filter is_network evs = evs ∨ Forall is_print evs → csv_files evs = [].
Proof.
  intros [H|H].
  - rewrite <- H. clear H. induction evs as [|e evs IH]; [done|].
    rewrite filter_cons. destruct e; simpl; try done.
  - by apply prints_silent in H as (H & _).
Qed.

Lemma csv_files_loop (W : world) ps vs :
  Forall2 (verdict_of W) ps vs → csv_files (loop_events ps vs) = [].
Proof.
  induction 1 as [|p v ps vs _ _ IH]; [done|].
  unfold loop_events in *. simpl. unfold pair_events at 1.
  rewrite !csv_files_app, IH.
  rewrite (csv_files_silent (request_for p))
    by (left; apply filter_network_request).
  unfold progress_line.
  destruct (String.eqb v "available"); [done|].
  by destruct (String.eqb v "taken").
Qed.

Lemma csv_files_summary t : csv_files (summary_events t) = [].
Proof.
  apply csv_files_silent. right. unfold summary_events.
  apply Forall_app. split; [by repeat constructor|].
  destruct (available t) as [|d l]; [constructor|].
  constructor; [done|]. by apply Forall_fmap, Forall_true.
Qed.

Lemma in_bucket_nonempty (b : string) (rs : list (string * string)) :
  in_bucket b rs ≠ [] ↔ Exists (λ r, bucket r.2 = b) rs.
Proof.
  unfold in_bucket. induction rs as [|r rs IH].
  - rewrite Exists_nil. simpl. tauto.
  - rewrite Exists_cons, <- IH, filter_cons.
    destruct (decide (bucket r.2 = b)) as [Hb|Hb]; simpl; [|tauto].
    split; [by left|done].
Qed.

(** Some result is available or unknown exactly when one of the two
    buckets is not empty. *)
Lemma worth_saving_results (rs : list (string * string)) :
  Exists (λ r, bucket r.2 = "available" ∨ bucket r.2 = "unknown") rs
  ↔ in_bucket "available" rs ≠ [] ∨ in_bucket "unknown" rs ≠ [].
Proof.
  rewrite !in_bucket_nonempty. induction rs as [|r rs IH].
  - rewrite !Exists_nil. tauto.
  - rewrite !Exists_cons, IH. tauto.
Qed.

(** C7. A run with the default [save_csv] returns the tally of its
    verdicts, each pair checked at the trace the pairs before it have left,
    and writes the record file exactly when one of these results is
    available or unknown, that is when one of the two buckets is not empty.
    It then writes it once: its name carries the time stamp; its first row is
    the header [domain,status]; the rows after it are the available, then
    the taken, then the unknown domains, one row per checked domain with the
    bucket of its verdict; and every verdict other than available and taken,
    such as error, timeout, no-server and unknown(code), has the bucket
    unknown. *)
Theorem record_file_written_iff
    (W : world) (words tlds : list string) (tr : trace) :
  let ps := list_prod words tlds in
  let vs := run_verdicts W ps (tr ++ header_events words tlds) in
  let rs := zip (candidate <$> ps) vs in
  ∃ t evs,
    run W words tlds true tr = (Ok t, tr ++ evs)
    ∧ length vs = length ps
    ∧ Forall2 (verdict_of W) ps vs
    ∧ available t = in_bucket "available" rs
    ∧ taken t = in_bucket "taken" rs
    ∧ unknown t = in_bucket "unknown" rs
    ∧ (csv_files evs ≠ []
       ↔ Exists (λ r, bucket r.2 = "available" ∨ bucket r.2 = "unknown") rs)
    ∧ (csv_files evs ≠ [] ↔ available t ≠ [] ∨ unknown t ≠ [])
    ∧ (∀ file, file ∈ csv_files evs →
         csv_files evs = [file]
         ∧ (∃ ts, file.1 = "domain_results_" +:+ ts +:+ ".csv")
         ∧ ∃ rows,
             file.2 = ["domain"; "status"] :: rows
             ∧ rows = ((λ d, [d; "available"]) <$> available t)
                      ++ ((λ d, [d; "taken"]) <$> taken t)
                      ++ ((λ d, [d; "unknown"]) <$> unknown t)
             ∧ rows ≡ₚ (λ r, [r.1; bucket r.2]) <$> rs
             ∧ len rows = checked t)
    ∧ (∀ v, v ≠ "available" → v ≠ "taken" → bucket v = "unknown")
    ∧ bucket "error" = "unknown" ∧ bucket "timeout" = "unknown"
    ∧ bucket "no-server" = "unknown"
    ∧ ∀ code : Z, bucket ("unknown(" +:+ pretty code +:+ ")") = "unknown".
Proof.
  cbv zeta.
  destruct (run_exact W words tlds true tr) as (Hlen & Hvs & ts & Hrun).
  set (vs := run_verdicts W _ _) in *.
  set (rs := zip (candidate <$> list_prod words tlds) vs) in *.
  set (t := fold_left tally_add rs empty_tally) in *.
  eexists t, _. split; [exact Hrun|]. split; [done|]. split; [done|].
  destruct (tally_add_fold rs empty_tally) as (Ha & Ht & Hu & Hc).
  fold t in Ha, Ht, Hu, Hc. simpl in Ha, Ht, Hu, Hc.
  assert (Hworth : worth_saving t = true ↔ available t ≠ [] ∨ unknown t ≠ []).
  { unfold worth_saving. rewrite orb_true_iff, !negb_true_iff.
    by rewrite !bool_decide_eq_false. }
  assert (Hcsv : csv_files
                   (header_events words tlds
                    ++ loop_events (list_prod words tlds) vs
                    ++ summary_events t ++ save_events true t ts)
                 = if worth_saving t
                   then [("domain_results_" +:+ ts +:+ ".csv", record_rows t)]
                   else []).
  { rewrite !csv_files_app, (csv_files_loop W _ _ Hvs), csv_files_summary.
    unfold save_events. simpl. by destruct (worth_saving t). }
  split_and!; try done.
  - rewrite worth_saving_results, <- Ha, <- Hu, <- Hworth, Hcsv.
    by destruct (worth_saving t).
  - rewrite <- Hworth, Hcsv. by destruct (worth_saving t).
  - intros file Hfile. rewrite Hcsv in *.
    destruct (worth_saving t); [|by apply not_elem_of_nil in Hfile].
    apply list_elem_of_singleton in Hfile as ->. split; [done|].
    split; [by exists ts|]. eexists. split; [reflexivity|].
    split; [done|]. split.
    + rewrite Ha, Ht, Hu. unfold in_bucket. rewrite <- !list_fmap_compose.
      clear. unfold bucket. induction rs as [|[d v] rs IH]; [done|].
      rewrite !filter_cons. simpl.
      destruct (String.eqb v "available"); [|destruct (String.eqb v "taken")];
        repeat case_decide; try done; simpl.
      * by rewrite IH.
      * rewrite <- Permutation_middle. by rewrite IH.
      * rewrite app_assoc, <- Permutation_middle, <- app_assoc. by rewrite IH.
    + assert (HP := buckets_partition rs). apply Permutation_length in HP.
      rewrite <- Ha, <- Ht, <- Hu in HP.
      rewrite !length_app, length_fmap in HP.
      unfold len in *. rewrite !length_app, !length_fmap. lia.
  - intros v Ha' Ht'. unfold bucket.
    apply String.eqb_neq in Ha', Ht'. by rewrite Ha', Ht'.
Qed.

Lemma record_file_written_iff_witness :
  ∃ t evs,
    run Sample.mixed ["neoware"] ["com"] true [] = (Ok t, evs)
    ∧ available t = ["neoware.com"]
    ∧ csv_files evs
      = [("domain_results_20240101_120000.csv",
          [["domain"; "status"]; ["neoware.com"; "available"]])].
Proof.
  destruct (record_file_written_iff Sample.mixed ["neoware"] ["com"] [])
    as (t & evs & Hrun & _ & _ & Ha & _).
  exists t, evs. split; [exact Hrun|]. split; [exact Ha|].
  vm_compute in Hrun. injection Hrun as <- <-. reflexivity.
Defined.

(** ** The entry point *)

Section Main.

Context (W : world).

Lemma after_equals_words arg v tr :
  flag_value "--words=" arg = Some v → after_equals arg tr = (Ok v, tr).
Proof.
  unfold flag_value. destruct (Py.startswith _ _) eqn:H; [|done].
  apply prefix_spec in H as [r ->]. by intros [= <-].
Qed.

Lemma after_equals_tlds arg v tr :
  flag_value "--tlds=" arg = Some v → after_equals arg tr = (Ok v, tr).
Proof.
  unfold flag_value. destruct (Py.startswith _ _) eqn:H; [|done].
  apply prefix_spec in H as [r ->]. by intros [= <-].
Qed.

Lemma flag_value_dashes flag arg v :
  flag_value flag arg = Some v → Py.startswith "--" flag = true →
  Py.startswith "--" arg = true.
Proof.
  unfold flag_value. destruct (Py.startswith flag arg) eqn:H; [|done].
  intros _. apply prefix_spec in H as [r ->].
  intros [r' ->]%prefix_spec. apply prefix_spec.
  exists (r' +:+ r). by rewrite append_assoc.
Qed.

Lemma words_file_loop argv words_file tr :
  for_each argv
    (λ words_file arg,
       if Py.startswith "--words=" arg
       then v ← after_equals arg; mret (Path W v)
       else mret words_file) words_file tr
  = (Ok (fold_left (λ words_file arg,
                      match flag_value "--words=" arg with
                      | Some v => Path W v
                      | None => words_file
                      end) argv words_file), tr).
Proof.
  revert words_file. induction argv as [|arg argv IH]; intros wf; [done|].
  simpl. unfold mbind, py_bind, bind.
  destruct (flag_value "--words=" arg) as [v|] eqn:Hv.
  - pose proof (after_equals_words _ _ tr Hv) as Ha.
    unfold flag_value in Hv. destruct (Py.startswith _ arg); [|done].
    rewrite Ha. apply IH.
  - unfold flag_value in Hv. destruct (Py.startswith _ arg); [done|].
    apply IH.
Qed.

Lemma options_loop argv tlds file_path tr :
  for_each argv
    (λ '(tlds, file_path) arg,
       if Py.startswith "--tlds=" arg
       then v ← after_equals arg; mret (Py.split "," v, file_path)
       else if Py.startswith "--words=" arg
       then mret (tlds, file_path)
       else if negb (Py.startswith "--" arg)
       then mret (tlds, Some arg)
       else mret (tlds, file_path)) (tlds, file_path) tr
  = (Ok (fold_left (λ tlds arg,
                      match flag_value "--tlds=" arg with
                      | Some v => Py.split "," v
                      | None => tlds
                      end) argv tlds,
         fold_left (λ file_path arg,
                      if Py.startswith "--" arg then file_path else Some arg)
                   argv file_path), tr).
Proof.
  revert tlds file_path.
  induction argv as [|arg argv IH]; intros tlds fp; [done|].
  simpl. unfold mbind, py_bind, bind.
  destruct (flag_value "--tlds=" arg) as [v|] eqn:Hv.
  - pose proof (after_equals_tlds _ _ tr Hv) as Ha.
    rewrite (flag_value_dashes _ _ _ Hv eq_refl).
    unfold flag_value in Hv. destruct (Py.startswith _ arg); [|done].
    rewrite Ha. apply IH.
  - unfold flag_value in Hv. destruct (Py.startswith "--tlds=" arg); [done|].
    destruct (Py.startswith "--words=" arg) eqn:Hw.
    + assert (Py.startswith "--" arg = true) as ->; [|apply IH].
      apply (flag_value_dashes "--words=" arg (drop_chars 8 arg)); [|done].
      unfold flag_value. by rewrite Hw.
    + destruct (Py.startswith "--" arg); apply IH.
Qed.

End Main.

Section MainCases.

Context (W : world).

Lemma load_block words_file tr :
  try_except
    (r ← load_words_file W words_file;
     print ("Loaded words from " +:+ words_file);;
     mret r)
    [(is_FileNotFoundError,
      print ("Words file not found: " +:+ words_file);;
      raise (SystemExit 1))] tr
  = match open_text W words_file with
    | None =>
        (Raise (SystemExit 1),
         tr ++ [Print ("Words file not found: " +:+ words_file)])
    | Some text =>
        match json_loads W text with
        | None => (Raise JSONDecodeError, tr)
        | Some (JObject members) =>
            (Ok (default [] (members !! "words"),
                 default [] (members !! "prefixes"),
                 default [] (members !! "roots")),
             tr ++ [Print ("Loaded words from " +:+ words_file)])
        | Some _ => (Raise AttributeError, tr)
        end
    end.
Proof.
  unfold load_words_file, open_, json_load, get_list. py_unfold.
  destruct (open_text W words_file) as [text|]; [|done].
  destruct (json_loads W text) as [data|]; [|done].
  by destruct data.
Qed.

Lemma file_block file_path tr :
  try_except
    (text ← open_ W file_path;
     let file_words := file_words text in
     print ("Loaded " +:+ pretty (len file_words)
              +:+ " words from " +:+ file_path);;
     mret file_words)
    [(is_FileNotFoundError,
      print ("File not found: " +:+ file_path);;
      raise (SystemExit 1))] tr
  = match open_text W file_path with
    | None =>
        (Raise (SystemExit 1),
         tr ++ [Print ("File not found: " +:+ file_path)])
    | Some ftext =>
        (Ok (file_words ftext),
         tr ++ [Print ("Loaded " +:+ pretty (len (file_words ftext))
                         +:+ " words from " +:+ file_path)])
    end.
Proof.
  unfold open_. py_unfold. by destruct (open_text W file_path).
Qed.

Lemma main_cases argv tr :
  main W argv tr =
  let words_file := resolved_words_file W argv in
  match open_text W words_file with
  | None =>
      (Raise (SystemExit 1),
       tr ++ [Print ("Words file not found: " +:+ words_file)])
  | Some text =>
      match json_loads W text with
      | None => (Raise JSONDecodeError, tr)
      | Some (JObject members) =>
          let tr1 := tr ++ [Print ("Loaded words from " +:+ words_file)] in
          match if_truthy (positional argv) with
          | Some file_path =>
              match open_text W file_path with
              | None =>
                  (Raise (SystemExit 1),
                   tr1 ++ [Print ("File not found: " +:+ file_path)])
              | Some ftext =>
                  check_words W (file_words ftext) (resolved_tlds argv)
                    (tr1 ++ [Print ("Loaded "
                                      +:+ pretty (len (file_words ftext))
                                      +:+ " words from " +:+ file_path)])
              end
          | None =>
              check_words W (document_words members) (resolved_tlds argv) tr1
          end
      | Some _ => (Raise AttributeError, tr)
      end
  end.
Proof.
  unfold main.
  rewrite (bind_ok _ _ _ _ _ (words_file_loop W argv (WORDS_FILE W) tr)).
  fold (resolved_words_file W argv).
  set (words_file := resolved_words_file W argv). cbv zeta.
  pose proof (load_block words_file tr) as Hload.
  destruct (open_text W words_file) as [text|];
    [|by rewrite (bind_raise _ _ _ _ _ Hload)].
  destruct (json_loads W text) as [data|];
    [|by rewrite (bind_raise _ _ _ _ _ Hload)].
  destruct data as [members| | | | |];
    try by rewrite (bind_raise _ _ _ _ _ Hload).
  rewrite (bind_ok _ _ _ _ _ Hload).
  rewrite (bind_ok _ _ _ _ _ (options_loop argv TLDS None _)).
  fold (resolved_tlds argv) (positional argv).
  destruct (if_truthy (positional argv)) as [file_path|]; [|done].
  pose proof (file_block file_path
                (tr ++ [Print ("Loaded words from " +:+ words_file)])) as Hfile.
  destruct (open_text W file_path) as [ftext|].
  - by rewrite (bind_ok _ _ _ _ _ Hfile).
  - by rewrite (bind_raise _ _ _ _ _ Hfile).
Qed.


End MainCases.





(** C9. With a plain word list named on the command line, the words checked
    are the post-processed lines of that file alone, whatever the
    structured file holds: neither its [words] nor its prefix-root
    combinations are checked.  The structured file is loaded first all the
    same, and the process exits with status 1 when it is missing. *)
Theorem positional_list_replaces_words
    (W : world) (argv : list string) (file_path : string) :
  positional argv = Some file_path → file_path ≠ "" →
  let words_file := resolved_words_file W argv in
  (∀ text members ftext,
     open_text W words_file = Some text →
     json_loads W text = Some (JObject members) →
     open_text W file_path = Some ftext →
     main W argv []
     = (run W (dedupe_lowercase (file_words ftext)) (resolved_tlds argv) true;;
        mret tt)
         [Print ("Loaded words from " +:+ words_file);
          Print ("Loaded " +:+ pretty (len (file_words ftext))
                   +:+ " words from " +:+ file_path)])
  ∧ (open_text W words_file = None →
     main W argv []
     = (Raise (SystemExit 1),
        [Print ("Words file not found: " +:+ words_file)])).
Proof.
  intros Hpos Hne. cbv zeta. split.
  - intros text members ftext Hopen Hjson Hfile.
    rewrite main_cases. cbv zeta. rewrite Hopen, Hjson, Hpos. simpl.
    destruct file_path; [done|]. simpl. by rewrite Hfile.
  - intros Hopen. rewrite main_cases. cbv zeta. by rewrite Hopen.
Qed.

Lemma positional_list_replaces_words_witness :
  main Sample.mixed ["words.txt"; "--tlds=zz"] []
  = (run Sample.mixed ["alpha"; "beta"] ["zz"] true;; mret tt)
      [Print "Loaded words from domain_words.json";
       Print "Loaded 3 words from words.txt"].
Proof.
  pose proof (positional_list_replaces_words Sample.mixed
                ["words.txt"; "--tlds=zz"] "words.txt" eq_refl) as H.
  destruct H as [H _]; [done|].
  exact (H "{doc}" _ _ eq_refl eq_refl eq_refl).
Defined.

(** C10. When the structured word file exists and is not valid JSON, or is
    JSON other than an object, [load_words_file] raises an exception that
    is not [FileNotFoundError]; the handler of the entry point lets it
    through, as it does every exception but [FileNotFoundError]: the process
    ends with that exception uncaught, having printed nothing, and not by
    the [sys.exit] of the missing-file path. *)
Theorem malformed_words_file_is_uncaught (W : world) (argv : list string) :
  let words_file := resolved_words_file W argv in
  (∀ text, open_text W words_file = Some text →
     (json_loads W text = None →
        load_words_file W words_file [] = (Raise JSONDecodeError, [])
        ∧ main W argv [] = (Raise JSONDecodeError, []))
     ∧ (∀ data, json_loads W text = Some data →
          (∀ members, data ≠ JObject members) →
          load_words_file W words_file [] = (Raise AttributeError, [])
          ∧ main W argv [] = (Raise AttributeError, [])))
  ∧ (∀ e tr, is_FileNotFoundError e = false →
       load_words_file W words_file [] = (Raise e, tr) →
       main W argv [] = (Raise e, tr))
  ∧ (∀ e, is_FileNotFoundError e = true ↔ e = FileNotFoundError).
Proof.
  cbv zeta. split_and!.
  - intros text Hopen. split.
    + intros Hjson. rewrite main_cases. cbv zeta. rewrite Hopen, Hjson.
      split; [|done].
      unfold load_words_file, open_, json_load. py_unfold.
      by rewrite Hopen, Hjson.
    + intros data Hjson Hdata. rewrite main_cases. cbv zeta.
      rewrite Hopen, Hjson.
      unfold load_words_file, open_, json_load, get_list. py_unfold.
      rewrite Hopen, Hjson.
      destruct data as [members| | | | |]; try done.
      by destruct (Hdata members).
  - intros e tr He Hload. unfold main.
    rewrite (bind_ok _ _ _ _ _ (words_file_loop W argv (WORDS_FILE W) [])).
    fold (resolved_words_file W argv).
    apply bind_raise. unfold try_except.
    rewrite (bind_raise _ _ _ _ _ Hload). simpl. by rewrite He.
  - intros e. by destruct e.
Qed.

Lemma malformed_words_file_is_uncaught_witness :
  main Sample.mixed ["--words=broken.json"] [] = (Raise JSONDecodeError, [])
  ∧ main Sample.mixed ["--words=array.json"] [] = (Raise AttributeError, []).
Proof.
  split.
  - pose proof (malformed_words_file_is_uncaught Sample.mixed
                  ["--words=broken.json"]) as [H _].
    destruct (H "not json" eq_refl) as [H1 _]. apply H1. reflexivity.
  - pose proof (malformed_words_file_is_uncaught Sample.mixed
                  ["--words=array.json"]) as [H _].
    destruct (H "[1]" eq_refl) as [_ H2].
    apply (H2 JArray); [reflexivity|done].
Defined.

(** * Further properties *)

(** ** The trace of a run *)

(** X1. A run appends to the trace, in this order and nothing else: the
    three header lines; for each pair of the word-major product its request
    (when its tld has a server), its progress line (none for the verdict
    taken) and one pause; the five summary lines, which show the counters
    of the returned tally, and the list of the available domains when there
    is one; last the record file and its confirmation line when saving
    applies. *)
Theorem run_events_in_order
    (W : world) (words tlds : list string) (save_csv : bool) (tr : trace) :
  ∃ t vs ts,
    let ps := list_prod words tlds in
    Forall2 (verdict_of W) ps vs
    ∧ t = fold_left tally_add (zip (candidate <$> ps) vs) empty_tally
    ∧ run W words tlds save_csv tr
      = (Ok t, tr ++ header_events words tlds ++ loop_events ps vs
                  ++ summary_events t ++ save_events save_csv t ts).
Proof.
  destruct (run_trace W words tlds save_csv tr) as (vs & ts & Hvs & Hrun).
  by eexists _, vs, ts.
Qed.

(** X2. The network operations of a run are fixed by the words, the tlds
    and the two server tables: they are the requests of the pairs whose tld
    has a server, in the order of the pairs, each with the 8 second
    timeout, whatever the servers answer. *)
Theorem run_requests_fixed
    (W : world) (words tlds : list string) (save_csv : bool) (tr : trace) :
  ∃ t evs,
    run W words tlds save_csv tr = (Ok t, tr ++ evs)
    ∧ filter is_network evs = concat (request_for <$> list_prod words tlds)
    ∧ Forall (λ e, ∃ url host port payload,
                e = HttpGet url 8 ∨ e = WhoisQuery host port payload 8)
        (filter is_network evs).
Proof.
  destruct (run_trace W words tlds save_csv tr) as (vs & ts & Hvs & Hrun).
  eexists _, _. split; [exact Hrun|].
  assert (Hf : filter is_network
                 (header_events words tlds
                  ++ loop_events (list_prod words tlds) vs
                  ++ summary_events
                       (fold_left tally_add
                          (zip (candidate <$> list_prod words tlds) vs)
                          empty_tally)
                  ++ save_events save_csv
                       (fold_left tally_add
                          (zip (candidate <$> list_prod words tlds) vs)
                          empty_tally) ts)
               = concat (request_for <$> list_prod words tlds)).
  { rewrite !filter_app, (filter_network_loop W _ _ Hvs),
      filter_network_summary, filter_network_save.
    simpl. by rewrite app_nil_r. }
  split; [exact Hf|]. rewrite Hf. clear.
  induction (list_prod words tlds) as [|p ps IH]; [constructor|].
  simpl. apply Forall_app. split; [|exact IH].
  unfold request_for. destruct (RDAP_SERVERS !! p.2) as [base|].
  - repeat constructor. exists (base +:+ candidate p), "", 0, "". by left.
  - destruct (WHOIS_SERVERS !! p.2) as [[host port]|]; [|constructor].
    repeat constructor. exists "", host, port, (candidate p +:+ Py.CRLF).
    by right.
Qed.

(** X3. A run is rate limited: it pauses once per pair, always for
    [RATE_LIMIT], and no network operation follows another without a pause
    in between. *)
Theorem run_rate_limited
    (W : world) (words tlds : list string) (save_csv : bool) (tr : trace) :
  ∃ t evs,
    run W words tlds save_csv tr = (Ok t, tr ++ evs)
    ∧ polite false evs = true
    ∧ filter is_sleep evs
      = replicate (length words * length tlds) (Sleep RATE_LIMIT).
Proof.
  destruct (run_trace W words tlds save_csv tr) as (vs & ts & Hvs & Hrun).
  eexists _, _. split; [exact Hrun|]. split.
  - change (header_events words tlds ++ ?r) with
      ([Print (Py.NL +:+ "Checking " +:+ pretty (len words) +:+ " words × "
                 +:+ pretty (len tlds) +:+ " TLDs = "
                 +:+ pretty (len words * len tlds) +:+ " domains" +:+ Py.NL)]
       ++ [Print (Py.ljust 30 "Domain" +:+ " " +:+ "Status")]
       ++ [Print (Py.repeat "─" 45)] ++ r).
    rewrite !(polite_quiet false [Print _]) by done.
    rewrite (polite_loop W _ _ _ Hvs).
    rewrite polite_quiet
      by (apply filter_network_summary || apply filter_sleep_summary).
    rewrite <- (app_nil_r (save_events _ _ _)).
    by rewrite polite_quiet
      by (apply filter_network_save || apply filter_sleep_save).
  - rewrite !filter_app, (filter_sleep_loop W _ _ Hvs),
      filter_sleep_summary, filter_sleep_save, length_prod.
    simpl. by rewrite app_nil_r.
Qed.

(** X4. With no word or no tld there is nothing to check: the run prints
    the header and a summary of zeros, sends nothing, does not pause and
    writes no record file, even with [save_csv]. *)
Theorem run_nothing_to_check
    (W : world) (words tlds : list string) (save_csv : bool) (tr : trace) :
  words = [] ∨ tlds = [] →
  run W words tlds save_csv tr
  = (Ok empty_tally,
     tr ++ header_events words tlds ++ summary_events empty_tally)
  ∧ summary_events empty_tally
    = [Print (Py.NL +:+ Py.repeat "═" 45); Print "Checked:   0";
       Print "Available: 0"; Print "Taken:     0"; Print "Unknown:   0"].
Proof.
  intros Hempty. split; [|reflexivity].
  destruct (run_trace W words tlds save_csv tr) as (vs & ts & Hvs & Hrun).
  assert (Hps : list_prod words tlds = []).
  { destruct Hempty as [-> | ->]; [done|apply list_prod_nil_r]. }
  rewrite Hps in *. apply Forall2_nil_inv_l in Hvs as ->.
  rewrite Hrun.
  replace (fold_left tally_add (zip (candidate <$> []) []) empty_tally)
    with empty_tally by done.
  replace (loop_events [] []) with (@nil event) by done.
  unfold save_events. replace (worth_saving empty_tally) with false by done.
  by rewrite andb_false_r, app_nil_r.
Qed.

Lemma run_nothing_to_check_witness :
  run Sample.mixed ["neo"; "byte"] [] true []
  = (Ok empty_tally,
     header_events ["neo"; "byte"] [] ++ summary_events empty_tally).
Proof.
  apply (run_nothing_to_check Sample.mixed ["neo"; "byte"] [] true []).
  by right.
Defined.

(** X5. [save_csv] decides the saving and nothing else: without it the run
    returns the same tally after the same events and writes no record file;
    with it the run adds the record file and its confirmation line, when
    the tally has an available or unknown domain. *)
Theorem run_save_csv_only_saves
    (W : world) (words tlds : list string) (tr : trace) :
  ∃ t evs,
    run W words tlds false tr = (Ok t, tr ++ evs)
    ∧ csv_files evs = []
    ∧ run W words tlds true tr
      = (Ok t, tr ++ evs ++ save_events true t (now_stamp W (tr ++ evs))).
Proof.
  destruct (loop_trace W (list_prod words tlds) empty_tally
              (tr ++ header_events words tlds)) as (vs & Hvs & Hl).
  set (t := fold_left tally_add _ empty_tally) in *.
  set (evs := header_events words tlds
              ++ loop_events (list_prod words tlds) vs ++ summary_events t).
  assert (Hrun : ∀ b,
    run W words tlds b tr
    = (Ok t, tr ++ evs ++ save_events b t (now_stamp W (tr ++ evs)))).
  { intros b. unfold run. unfold mbind, py_bind, bind.
    rewrite print_header_trace, for_each_nested. fold empty_tally.
    rewrite Hl. fold t. rewrite print_summary_trace. fold (worth_saving t).
    unfold save_events, evs. rewrite !app_assoc.
    destruct (b && worth_saving t).
    - rewrite save_results_spec. by rewrite <- !app_assoc.
    - simpl. by rewrite app_nil_r. }
  exists t, evs. split_and!.
  - rewrite (Hrun false). unfold save_events. simpl. by rewrite app_nil_r.
  - destruct (run_spec W words tlds false tr)
      as (vs' & evs' & _ & Hrun' & _ & _ & ts & Hcsv).
    rewrite (Hrun false) in Hrun'. unfold save_events in Hrun'.
    simpl in Hrun'. rewrite app_nil_r in Hrun'.
    injection Hrun' as _ Hevs. apply app_inv_head in Hevs as <-.
    exact Hcsv.
  - apply Hrun.
Qed.

(** ** The server tables *)

Lemma has_server_iff tld :
  has_server tld = true
  ↔ tld ∈ ["com"; "net"; "org"; "ai"; "app"; "dev"; "tech"; "io"; "co"; "me"].
Proof.
  unfold has_server. rewrite bool_decide_eq_true. split.
  - intros [[base H]|[[host port] H]]; apply elem_of_list_to_map_2 in H;
      repeat (apply elem_of_cons in H as [[= -> _]|H];
              [rewrite !elem_of_cons; tauto|]);
      by apply not_elem_of_nil in H.
  - intros H.
    repeat (apply elem_of_cons in H as [->|H];
            [first [left; eexists; reflexivity | right; eexists; reflexivity]|]).
    by apply not_elem_of_nil in H.
Qed.

Lemma requests_of_served (ps : list (string * string)) :
  Forall (λ p, has_server p.2 = true) ps →
  length (filter (λ p, has_server p.2) ps) = length ps.
Proof.
  induction 1 as [|p ps Hp _ IH]; [done|].
  rewrite filter_cons_True by (by rewrite Hp). simpl. by rewrite IH.
Qed.

(** X6. Exactly ten tlds have a server, none of them in both tables, and a
    tld is looked up as it is written (no case folding).  The five default
    tlds are among the ten, so a run over the default tlds performs one
    network operation for every pair: five per word. *)
Theorem default_tlds_are_served :
  (∀ tld, has_server tld = true
          ↔ tld ∈ ["com"; "net"; "org"; "ai"; "app"; "dev"; "tech";
                   "io"; "co"; "me"])
  ∧ (∀ tld, ¬ (is_Some (RDAP_SERVERS !! tld)
               ∧ is_Some (WHOIS_SERVERS !! tld)))
  ∧ has_server "COM" = false
  ∧ Forall (λ tld, has_server tld = true) TLDS
  ∧ ∀ (W : world) words save_csv tr,
      ∃ t evs, run W words TLDS save_csv tr = (Ok t, tr ++ evs)
             ∧ network_ops evs = (5 * length words)%nat.
Proof.
  split_and!.
  - apply has_server_iff.
  - intros tld [[base H] [[host port] H']].
    apply elem_of_list_to_map_2 in H.
    repeat (apply elem_of_cons in H as [[= -> _]|H]; [by vm_compute in H'|]).
    by apply not_elem_of_nil in H.
  - reflexivity.
  - by repeat constructor.
  - intros W words save_csv tr.
    destruct (run_spec W words TLDS save_csv tr)
      as (vs & evs & _ & Hrun & _ & Hn & _).
    eexists _, evs. split; [exact Hrun|]. rewrite Hn, requests_of_served.
    + rewrite length_prod. simpl. lia.
    + apply Forall_forall. intros [w tld] Hin%list_elem_of_In.
      apply in_prod_iff in Hin as [_ Hin%list_elem_of_In]. simpl.
      apply has_server_iff. revert Hin. unfold TLDS.
      rewrite !elem_of_cons. tauto.
Qed.

(** ** The command line *)

Lemma fold_left_skip {A B} (f : A → B → A) pre x post a :
  (∀ c, f c x = c) →
  fold_left f (pre ++ x :: post) a = fold_left f (pre ++ post) a.
Proof. intros H. rewrite !fold_left_app. simpl. by rewrite H. Qed.

Lemma fold_left_reset {A B} (f : A → B → A) post a b :
  (∃ y, y ∈ post ∧ ∀ c d, f c y = f d y) →
  fold_left f post a = fold_left f post b.
Proof.
  revert a b. induction post as [|x post IH]; intros a b (y & Hy & Hf).
  - by apply not_elem_of_nil in Hy.
  - simpl. apply elem_of_cons in Hy as [->|Hy].
    + by rewrite (Hf a b).
    + apply IH. by exists y.
Qed.

(** An argument can be dropped from a fold that only arguments of kind [k]
    change, and change to a value of their own, when it is an ignored
    option or a later argument has its kind. *)
Lemma fold_left_override {A} (f : A → string → A) (k : arg_kind)
    pre a post init :
  k ≠ OtherOption →
  (∀ x, kind_of x = k → ∀ c d, f c x = f d x) →
  (∀ x, kind_of x ≠ k → ∀ c, f c x = c) →
  kind_of a = OtherOption ∨ (∃ b, b ∈ post ∧ kind_of b = kind_of a) →
  fold_left f (pre ++ a :: post) init = fold_left f (pre ++ post) init.
Proof.
  intros Hk Hown Hother Ha.
  destruct (decide (kind_of a = k)) as [Hka|Hka].
  - destruct Ha as [Ha|(b & Hb & Hkb)]; [congruence|].
    rewrite !fold_left_app. simpl. apply fold_left_reset.
    exists b. split; [done|]. apply Hown. congruence.
  - apply fold_left_skip. by apply Hother.
Qed.

Lemma kind_of_cases arg :
  match kind_of arg with
  | WordsOption =>
      flag_value "--words=" arg = Some (drop_chars 8 arg)
      ∧ flag_value "--tlds=" arg = None ∧ Py.startswith "--" arg = true
  | TldsOption =>
      flag_value "--words=" arg = None
      ∧ flag_value "--tlds=" arg = Some (drop_chars 7 arg)
      ∧ Py.startswith "--" arg = true
  | OtherOption =>
      flag_value "--words=" arg = None
      ∧ flag_value "--tlds=" arg = None ∧ Py.startswith "--" arg = true
  | PlainFile =>
      flag_value "--words=" arg = None
      ∧ flag_value "--tlds=" arg = None ∧ Py.startswith "--" arg = false
  end.
Proof.
  unfold kind_of, flag_value.
  destruct (Py.startswith "--words=" arg) eqn:Hw.
  - apply prefix_spec in Hw as [r ->]. by split_and!.
  - destruct (Py.startswith "--tlds=" arg) eqn:Ht.
    + apply prefix_spec in Ht as [r ->]. by split_and!.
    + by destruct (Py.startswith "--" arg).
Qed.

Section CommandLine.

Context (W : world).

(** The entry point depends on the command line through the three
    resolved values only. *)
Lemma main_ext argv1 argv2 tr :
  resolved_words_file W argv1 = resolved_words_file W argv2 →
  resolved_tlds argv1 = resolved_tlds argv2 →
  positional argv1 = positional argv2 →
  main W argv1 tr = main W argv2 tr.
Proof. intros H1 H2 H3. rewrite !main_cases. cbv zeta. by rewrite H1, H2, H3. Qed.

Lemma main_drop_arg pre a post tr :
  kind_of a = OtherOption ∨ (∃ b, b ∈ post ∧ kind_of b = kind_of a) →
  main W (pre ++ a :: post) tr = main W (pre ++ post) tr.
Proof.
  intros Ha. apply main_ext.
  - apply (fold_left_override _ WordsOption); [done| | |done].
    + intros x Hx c d. pose proof (kind_of_cases x) as H.
      rewrite Hx in H. destruct H as (-> & _). done.
    + intros x Hx c. pose proof (kind_of_cases x) as H.
      destruct (kind_of x); try done; by destruct H as (-> & _).
  - apply (fold_left_override _ TldsOption); [done| | |done].
    + intros x Hx c d. pose proof (kind_of_cases x) as H.
      rewrite Hx in H. destruct H as (_ & -> & _). done.
    + intros x Hx c. pose proof (kind_of_cases x) as H.
      destruct (kind_of x); try done; by destruct H as (_ & -> & _).
  - apply (fold_left_override _ PlainFile); [done| | |done].
    + intros x Hx c d. pose proof (kind_of_cases x) as H.
      rewrite Hx in H. destruct H as (_ & _ & ->). done.
    + intros x Hx c. pose proof (kind_of_cases x) as H.
      destruct (kind_of x); try done; by destruct H as (_ & _ & ->).
Qed.

End CommandLine.

(** X7. An option the program does not know (an argument that starts with
    [--] but with neither [--words=] nor [--tlds=]) is ignored without a
    message: removing it from the command line changes nothing. *)
Theorem unknown_options_are_ignored
    (W : world) (pre post : list string) (a : string) (tr : trace) :
  Py.startswith "--" a = true →
  Py.startswith "--words=" a = false →
  Py.startswith "--tlds=" a = false →
  main W (pre ++ a :: post) tr = main W (pre ++ post) tr.
Proof.
  intros H1 H2 H3. apply main_drop_arg. left.
  unfold kind_of. by rewrite H2, H3, H1.
Qed.

Lemma unknown_options_are_ignored_witness :
  main Sample.mixed (["words.txt"] ++ "--verbose" :: ["--tlds=zz"]) []
  = main Sample.mixed (["words.txt"] ++ ["--tlds=zz"]) [].
Proof.
  apply (unknown_options_are_ignored Sample.mixed ["words.txt"] ["--tlds=zz"]
           "--verbose" []); reflexivity.
Defined.

(** X8. Of several arguments of one kind ([--words=], [--tlds=], or plain
    word-list paths) only the last counts: an argument followed by another
    of its kind can be removed from the command line without any change. *)
Theorem later_argument_overrides
    (W : world) (pre post : list string) (a : string) (tr : trace) :
  (∃ b, b ∈ post ∧ kind_of b = kind_of a) →
  main W (pre ++ a :: post) tr = main W (pre ++ post) tr.
Proof. intros H. apply main_drop_arg. by right. Qed.

Lemma later_argument_overrides_witness :
  main Sample.mixed ([] ++ "nofile.txt" :: ["--tlds=zz"; "words.txt"]) []
  = main Sample.mixed ([] ++ ["--tlds=zz"; "words.txt"]) [].
Proof.
  apply (later_argument_overrides Sample.mixed [] ["--tlds=zz"; "words.txt"]
           "nofile.txt" []).
  exists "words.txt". split; [|reflexivity].
  rewrite !elem_of_cons. tauto.
Defined.

(** X9. Without a plain word list (no such argument, or an empty one) the
    words checked are the post-processed [words] of the structured document
    followed by every prefix-root combination; a key the document lacks
    counts as an empty list. *)
Theorem structured_words_are_checked
    (W : world) (argv : list string) (text : string)
    (members : gmap string (list string)) :
  positional argv = None ∨ positional argv = Some "" →
  let words_file := resolved_words_file W argv in
  open_text W words_file = Some text →
  json_loads W text = Some (JObject members) →
  load_words_file W words_file []
  = (Ok (default [] (members !! "words"), default [] (members !! "prefixes"),
         default [] (members !! "roots")), [])
  ∧ main W argv []
    = (run W (dedupe_lowercase
                (default [] (members !! "words")
                 ++ generate_combinations (default [] (members !! "prefixes"))
                      (default [] (members !! "roots"))))
         (resolved_tlds argv) true;;
       mret tt) [Print ("Loaded words from " +:+ words_file)].
Proof.
  intros Hpos words_file Hopen Hjson. subst words_file. split.
  - unfold load_words_file, open_, json_load, get_list. py_unfold.
    by rewrite Hopen, Hjson.
  - rewrite main_cases. cbv zeta. rewrite Hopen, Hjson.
    by destruct Hpos as [-> | ->].
Qed.

Lemma structured_words_are_checked_witness :
  main Sample.mixed ["--tlds=zz"; ""] []
  = (run Sample.mixed ["neo"; "neobyte"; "neoware"] ["zz"] true;; mret tt)
      [Print "Loaded words from domain_words.json"].
Proof.
  edestruct (structured_words_are_checked Sample.mixed ["--tlds=zz"; ""]
               "{doc}") as [_ H];
    [right; reflexivity|reflexivity|reflexivity|exact H].
Defined.

(** X10. When the plain word list named on the command line does not
    exist, the process has already loaded the structured file; it prints
    [File not found: <path>] and exits with status 1 before any lookup. *)
Theorem missing_plain_list_is_fatal
    (W : world) (argv : list string) (file_path text : string)
    (members : gmap string (list string)) :
  positional argv = Some file_path → file_path ≠ "" →
  let words_file := resolved_words_file W argv in
  open_text W words_file = Some text →
  json_loads W text = Some (JObject members) →
  open_text W file_path = None →
  main W argv []
  = (Raise (SystemExit 1),
     [Print ("Loaded words from " +:+ words_file);
      Print ("File not found: " +:+ file_path)])
  ∧ exit_status (main W argv []).1 = 1.
Proof.
  intros Hpos Hne words_file Hopen Hjson Hfile. subst words_file.
  rewrite main_cases. cbv zeta. rewrite Hopen, Hjson, Hpos.
  destruct file_path; [done|]. simpl. by rewrite Hfile.
Qed.

Lemma missing_plain_list_is_fatal_witness :
  main Sample.mixed ["nofile.txt"] []
  = (Raise (SystemExit 1),
     [Print "Loaded words from domain_words.json";
      Print "File not found: nofile.txt"]).
Proof.
  edestruct (missing_plain_list_is_fatal Sample.mixed ["nofile.txt"]
               "nofile.txt" "{doc}") as [H _];
    [reflexivity|done|reflexivity|reflexivity|reflexivity|exact H].
Defined.

(** X12. The tld list written after [--tlds] with a space, as the usage
    text of the module shows it, is not read as tlds: [--tlds] alone is
    ignored and the list is taken as the path of the plain word list, in
    place of the path given before it. *)
Theorem tlds_after_space_is_a_path
    (W : world) (pre : list string) (v : string) (tr : trace) :
  Py.startswith "--" v = false →
  main W (pre ++ ["--tlds"; v]) tr = main W (pre ++ [v]) tr
  ∧ resolved_tlds (pre ++ ["--tlds"; v]) = resolved_tlds pre
  ∧ positional (pre ++ ["--tlds"; v]) = Some v.
Proof.
  intros Hv. split_and!.
  - by apply (main_drop_arg W pre "--tlds" [v]); left.
  - pose proof (kind_of_cases v) as H. unfold kind_of in H.
    unfold resolved_tlds. rewrite fold_left_app. simpl.
    destruct (Py.startswith "--words=" v) eqn:Hw.
    { destruct H as (_ & _ & H). congruence. }
    destruct (Py.startswith "--tlds=" v) eqn:Ht.
    { destruct H as (_ & _ & H). congruence. }
    rewrite Hv in H. by destruct H as (_ & -> & _).
  - unfold positional. rewrite fold_left_app. simpl. by rewrite Hv.
Qed.

Lemma tlds_after_space_is_a_path_witness :
  main Sample.mixed (["words.txt"] ++ ["--tlds"; "com,ai,app,io"]) []
  = (Raise (SystemExit 1),
     [Print "Loaded words from domain_words.json";
      Print "File not found: com,ai,app,io"]).
Proof.
  pose proof (tlds_after_space_is_a_path Sample.mixed ["words.txt"]
                "com,ai,app,io" [] eq_refl) as (H & _).
  rewrite H. reflexivity.
Defined.

(** ** The word sources *)

Lemma is_space_lower_char (c : ascii) :
  Py.is_space (Py.lower_char c) = Py.is_space c.
Proof. destruct c as [[] [] [] [] [] [] [] []]; reflexivity. Qed.

Lemma lstrip_lower (s : string) : Py.lstrip (Py.lower s) = Py.lower (Py.lstrip s).
Proof.
  induction s as [|c s IH]; [done|]. simpl.
  rewrite is_space_lower_char. by destruct (Py.is_space c).
Qed.

Lemma rstrip_lower (s : string) : Py.rstrip (Py.lower s) = Py.lower (Py.rstrip s).
Proof.
  induction s as [|c s IH]; [done|]. simpl. rewrite IH.
  destruct (Py.rstrip s); simpl; [|done].
  rewrite is_space_lower_char. by destruct (Py.is_space c).
Qed.

Lemma rstrip_idemp (s : string) : Py.rstrip (Py.rstrip s) = Py.rstrip s.
Proof.
  induction s as [|c s IH]; [done|]. simpl.
  destruct (Py.rstrip s) as [|x r] eqn:Hr.
  - destruct (Py.is_space c) eqn:Hc; [done|]. simpl. by rewrite Hc.
  - simpl. simpl in IH. by rewrite IH.
Qed.

(** Stripping on the right keeps a first character that is not a space. *)
Lemma rstrip_head (c : ascii) (s : string) :
  Py.is_space c = false → ∃ r, Py.rstrip (String c s) = String c r.
Proof.
  intros Hc. simpl. destruct (Py.rstrip s); [|by eexists].
  rewrite Hc. by eexists.
Qed.

Lemma lstrip_head (s : string) :
  Py.lstrip s = "" ∨ ∃ c r, Py.lstrip s = String c r ∧ Py.is_space c = false.
Proof.
  induction s as [|c s IH]; [by left|]. simpl.
  destruct (Py.is_space c) eqn:Hc; [done|]. right. by exists c, s.
Qed.

Lemma strip_idemp (s : string) : Py.strip (Py.strip s) = Py.strip s.
Proof.
  unfold Py.strip.
  destruct (lstrip_head s) as [->|(c & r & -> & Hc)]; [done|].
  destruct (rstrip_head c r Hc) as [r' Hr]. rewrite Hr.
  simpl Py.lstrip. rewrite Hc, <- Hr. apply rstrip_idemp.
Qed.

Lemma lines_concat (text : string) :
  fold_right String.append "" (Py.lines text) = text.
Proof.
  induction text as [|c s IH]; [done|]. simpl.
  destruct (Ascii.eqb c Py.LF) eqn:Hc.
  - apply Ascii.eqb_eq in Hc as ->. simpl. by rewrite IH.
  - destruct (Py.lines s) as [|l ls]; simpl in *; by rewrite <- IH.
Qed.

Lemma lstrip_line_feed (s : string) :
  Py.lstrip (s +:+ Py.NL)
  = match Py.lstrip s with "" => "" | r => r +:+ Py.NL end.
Proof.
  induction s as [|c s IH]; [done|]. rewrite append_cons. simpl.
  destruct (Py.is_space c); [exact IH|]. by rewrite append_cons.
Qed.

Lemma rstrip_line_feed (s : string) : Py.rstrip (s +:+ Py.NL) = Py.rstrip s.
Proof.
  induction s as [|c s IH]; [done|]. rewrite append_cons. simpl.
  by rewrite IH.
Qed.

(** The line feed that ends a line is stripped with the rest. *)
Lemma strip_line_feed (s : string) : Py.strip (s +:+ Py.NL) = Py.strip s.
Proof.
  unfold Py.strip. rewrite lstrip_line_feed.
  destruct (Py.lstrip s) as [|c r]; [done|]. apply rstrip_line_feed.
Qed.

Lemma contains_NL_cons (c : ascii) (s : string) :
  Py.contains Py.NL (String c s) = false →
  Ascii.eqb c Py.LF = false ∧ Py.contains Py.NL s = false.
Proof.
  change (Py.contains Py.NL (String c s))
    with (String.prefix Py.NL (String c s) || Py.contains Py.NL s).
  intros [Hp Hc]%orb_false_iff. split; [|done].
  destruct (Ascii.eqb c Py.LF) eqn:Heq; [|done].
  apply Ascii.eqb_eq in Heq as ->. simpl in Hp. by destruct s.
Qed.

(** A line ends at its first line feed. *)
Lemma lines_cut (body rest : string) :
  Py.contains Py.NL body = false →
  Py.lines (body +:+ Py.NL +:+ rest) = (body +:+ Py.NL) :: Py.lines rest.
Proof.
  induction body as [|c body IH]; intros Hb; [done|].
  apply contains_NL_cons in Hb as [Hc Hb].
  rewrite !append_cons. simpl. by rewrite Hc, (IH Hb).
Qed.

(** The text after the last line feed, when there is some, is a line. *)
Lemma lines_last (body : string) :
  Py.contains Py.NL body = false → body ≠ "" → Py.lines body = [body].
Proof.
  induction body as [|c body IH]; intros Hb Hne; [done|].
  apply contains_NL_cons in Hb as [Hc Hb]. simpl. rewrite Hc.
  destruct body as [|c' body]; [done|]. by rewrite (IH Hb).
Qed.

(** X13. The lines of a text are its pieces cut after each line feed: a
    piece without line feed followed by a line feed is a line, the text
    after the last line feed is a line when it is not empty, and the lines
    put together give the text.  The labels read from a plain word list are
    the lowercased, trimmed lines that are not blank, one per such line in
    the order of the lines; each is non-empty, lowercase and free of
    surrounding whitespace.  An empty file gives no label. *)
Theorem file_words_are_trimmed_labels (text : string) :
  Forall (λ w, w ≠ "" ∧ Py.lower w = w ∧ Py.strip w = w) (file_words text)
  ∧ file_words text
    = (λ line, Py.lower (Py.strip line))
        <$> filter (λ line, Py.strip line ≠ "") (Py.lines text)
  ∧ fold_right String.append "" (Py.lines text) = text
  ∧ (∀ body rest, Py.contains Py.NL body = false →
       Py.lines (body +:+ Py.NL +:+ rest)
       = (body +:+ Py.NL) :: Py.lines rest)
  ∧ (∀ body, Py.contains Py.NL body = false → body ≠ "" →
       Py.lines body = [body])
  ∧ Py.lines "" = []
  ∧ (∀ body rest, Py.contains Py.NL body = false →
       file_words (body +:+ Py.NL +:+ rest)
       = (if Py.truthy (Py.strip body)
          then [Py.lower (Py.strip body)] else [])
         ++ file_words rest)
  ∧ (length (file_words text) ≤ length (Py.lines text))%nat
  ∧ file_words "" = []
  ∧ file_words ("Alpha" +:+ Py.NL +:+ "  beta " +:+ Py.NL +:+ Py.NL
                  +:+ "ALPHA")
    = ["alpha"; "beta"; "alpha"].
Proof.
  assert (Heq : file_words text
                = (λ line, Py.lower (Py.strip line))
                    <$> filter (λ line, Py.strip line ≠ "") (Py.lines text)).
  { unfold file_words. f_equal. apply list_filter_iff. intros line.
    by destruct (Py.strip line). }
  split_and!; [|exact Heq|apply lines_concat|apply lines_cut|apply lines_last
               |done| | |done|reflexivity].
  - rewrite Heq. apply Forall_fmap, Forall_forall.
    intros line [Hne _]%list_elem_of_filter. simpl. split_and!.
    + by destruct (Py.strip line).
    + apply lower_idemp.
    + unfold Py.strip at 1. rewrite lstrip_lower, rstrip_lower.
      fold (Py.strip (Py.strip line)). by rewrite strip_idemp.
  - intros body rest Hb. unfold file_words. rewrite (lines_cut _ _ Hb).
    rewrite filter_cons.
    assert (Hs : Py.strip (body +:+ Py.NL) = Py.strip body)
      by apply strip_line_feed.
    rewrite Hs. destruct (Py.truthy (Py.strip body)); simpl; [|done].
    by rewrite Hs.
  - rewrite Heq, length_fmap. apply length_filter.
Qed.

(** X14. [generate_combinations] gives one label per pair of a prefix and a
    root, prefix-major, each the prefix immediately followed by the root;
    with no prefix or no root it gives nothing. *)
Theorem generate_combinations_product (prefixes roots : list string) :
  length (generate_combinations prefixes roots)
  = (length prefixes * length roots)%nat
  ∧ (∀ x, x ∈ generate_combinations prefixes roots
          ↔ ∃ p r, p ∈ prefixes ∧ r ∈ roots ∧ x = p +:+ r)
  ∧ (∀ p, generate_combinations (p :: prefixes) roots
          = (String.append p <$> roots)
            ++ generate_combinations prefixes roots)
  ∧ generate_combinations [] roots = []
  ∧ generate_combinations prefixes [] = [].
Proof.
  unfold generate_combinations. split_and!.
  - by rewrite length_map, length_prod.
  - intros x. rewrite list_elem_of_In, in_map_iff. split.
    + intros ([p r] & <- & Hin). apply in_prod_iff in Hin as [Hp Hr].
      exists p, r. by rewrite !list_elem_of_In.
    + intros (p & r & Hp & Hr & ->). exists (p, r). split; [done|].
      apply in_prod_iff. by rewrite <- !list_elem_of_In.
  - intros p. simpl. rewrite map_app, map_map. done.
  - done.
  - by rewrite list_prod_nil_r.
Qed.

Lemma split_nonempty (sep : ascii) (s : string) : Py.split sep s ≠ [].
Proof.
  induction s as [|c s IH]; [done|]. simpl.
  destruct (Ascii.eqb c sep); [done|]. by destruct (Py.split sep s).
Qed.

Lemma split_concat (sep : ascii) (s : string) :
  String.concat (String sep "") (Py.split sep s) = s.
Proof.
  induction s as [|c s IH]; [done|]. simpl.
  pose proof (split_nonempty sep s) as Hne.
  destruct (Ascii.eqb c sep) eqn:Hc.
  - apply Ascii.eqb_eq in Hc as ->.
    destruct (Py.split sep s) as [|w ws]; [done|].
    change (String.concat (String sep "") ("" :: w :: ws))
      with (String sep (String.concat (String sep "") (w :: ws))).
    by rewrite IH.
  - destruct (Py.split sep s) as [|w ws]; [done|].
    destruct ws as [|w' ws]; simpl in *; by rewrite <- IH.
Qed.

Lemma split_pieces (sep : ascii) (s : string) :
  Forall (λ piece, Py.contains (String sep "") piece = false) (Py.split sep s).
Proof.
  induction s as [|c s IH]; [by repeat constructor|]. simpl.
  destruct (Ascii.eqb c sep) eqn:Hc.
  - constructor; [done|exact IH].
  - pose proof (split_nonempty sep s) as Hne.
    destruct (Py.split sep s) as [|w ws]; [done|].
    apply Forall_cons in IH as [Hw Hws]. constructor; [|done].
    change (Py.contains (String sep "") (String c w))
      with (String.prefix (String sep "") (String c w)
            || Py.contains (String sep "") w).
    rewrite Hw, orb_false_r. simpl.
    destruct (ascii_dec sep c) as [->|Hsep]; [|done].
    by rewrite Ascii.eqb_refl in Hc.
Qed.

Lemma flag_value_append (flag v : string) :
  flag_value flag (flag +:+ v) = Some v.
Proof.
  unfold flag_value.
  assert (Py.startswith flag (flag +:+ v) = true) as ->
    by (apply prefix_spec; by exists v).
  f_equal. induction flag as [|c flag IH]; [done|].
  by rewrite append_cons.
Qed.

(** X15. The value of an option is all the text after its first [=].  A
    last [--words=v] makes [Path(v)] the structured file, also when [v]
    holds an [=]; a last [--tlds=v] makes the tlds the pieces of [v]
    between commas: at least one piece, none with a comma, and joined by
    commas they give [v] back, so [--tlds=] alone gives the one empty tld.
    Without these options the defaults stay. *)
Theorem option_values (W : world) (argv : list string) (v : string) :
  resolved_words_file W (argv ++ ["--words=" +:+ v]) = Path W v
  ∧ resolved_tlds (argv ++ ["--tlds=" +:+ v]) = Py.split "," v
  ∧ String.concat "," (Py.split "," v) = v
  ∧ Py.split "," v ≠ []
  ∧ Forall (λ tld, Py.contains "," tld = false) (Py.split "," v)
  ∧ Py.split "," "" = [""]
  ∧ (Forall (λ a, kind_of a ≠ WordsOption) argv →
     resolved_words_file W argv = WORDS_FILE W)
  ∧ (Forall (λ a, kind_of a ≠ TldsOption) argv →
     resolved_tlds argv = TLDS).
Proof.
  split_and!.
  - unfold resolved_words_file. rewrite fold_left_app. simpl.
    by rewrite flag_value_append.
  - unfold resolved_tlds. rewrite fold_left_app. simpl.
    by rewrite flag_value_append.
  - apply split_concat.
  - apply split_nonempty.
  - apply split_pieces.
  - done.
  - unfold resolved_words_file. intros Hf. generalize (WORDS_FILE W).
    induction Hf as [|a argv Ha _ IH]; intros init; [done|]. simpl.
    pose proof (kind_of_cases a) as H.
    destruct (kind_of a); try done; destruct H as (-> & _); apply IH.
  - unfold resolved_tlds. intros Hf. generalize TLDS.
    induction Hf as [|a argv Ha _ IH]; intros init; [done|]. simpl.
    pose proof (kind_of_cases a) as H.
    destruct (kind_of a); try done; destruct H as (_ & -> & _); apply IH.
Qed.

Lemma option_values_witness :
  resolved_words_file Sample.mixed (["--words=a.json"] ++ ["--words=b=c.json"])
  = "b=c.json"
  ∧ resolved_tlds (["--tlds=me"] ++ ["--tlds=com,io"]) = ["com"; "io"]
  ∧ resolved_words_file Sample.mixed ["words.txt"; "--tlds=zz"]
    = "domain_words.json"
  ∧ resolved_tlds ["words.txt"; "--words=a.json"; "--tlds"] = TLDS.
Proof.
  pose proof (option_values Sample.mixed ["--words=a.json"] "b=c.json")
    as (H1 & _).
  pose proof (option_values Sample.mixed ["--tlds=me"] "com,io")
    as (_ & H2 & _).
  pose proof (option_values Sample.mixed ["words.txt"; "--tlds=zz"] "")
    as (_ & _ & _ & _ & _ & _ & H3 & _).
  pose proof (option_values Sample.mixed
                ["words.txt"; "--words=a.json"; "--tlds"] "")
    as (_ & _ & _ & _ & _ & _ & _ & H4).
  split_and!; [exact H1|exact H2|apply H3|apply H4];
    repeat constructor; by vm_compute.
Defined.
